(** * envconfig: binding environment variables onto struct fields

    A shallow embedding of the Go package [envconfig] (files [options.go],
    [variable.go], [process.go], [error.go]) and the properties of its
    key resolution, value resolution, type coercion and whitelist check.

    Conventions of the embedding.
    - A Go [string] is a sequence of bytes: Rocq's [string].  The functions
      of the Go standard library that the package calls ([strings], [strconv],
      [os], [regexp], [unicode], [unicode/utf8]) are modelled on these bytes,
      with the UTF-8 decoding, the white space and the replacement of invalid
      bytes of the library.  The Unicode case table is a parameter.
    - The process environment is the list of its [NAME=value] entries, in
      the order [os.Environ] enumerates them; the file system is a finite map
      from paths to contents.
    - [reflect] is replaced by a first-order description of Go types ([Ty])
      and values ([Val]); a [reflect.Value] that designates a field is a path
      into the value of the specification struct.
    - A function with several results returns the tuple of them, the error
      last, as an [option]; a function that returns [(T, error)] with nothing
      in [T] on an error returns a sum. *)

From stdpp Require Import base option list gmap strings.
From Stdlib Require Import ZArith Ascii String Bool Lia.

Local Open Scope string_scope.
Local Open Scope list_scope.
Local Open Scope Z_scope.

(** ** Bytes *)

Definition byte_in (lo hi : N) (c : ascii) : bool :=
  ((lo <=? N_of_ascii c) && (N_of_ascii c <=? hi))%N.

Definition isUpperAZ : ascii -> bool := byte_in 65 90.
Definition isLowerAZ : ascii -> bool := byte_in 97 122.
Definition isDigit09 : ascii -> bool := byte_in 48 57.

(** [lower(c)] of [strconv]: [c | ('x' - 'X')], i.e. bit 5 set. *)
Definition lower (c : ascii) : ascii :=
  ascii_of_N (N.lor (N_of_ascii c) 32).

Definition toUpperByte (c : ascii) : ascii :=
  if isLowerAZ c then ascii_of_N (N_of_ascii c - 32) else c.

(** [s[n:]] and [s[:n]]. *)
Fixpoint skip (n : nat) (s : string) : string :=
  match n, s with
  | O, _ => s
  | S n', String _ r => skip n' r
  | S _, EmptyString => EmptyString
  end.

Definition take (n : nat) (s : string) : string := String.substring 0 n s.

Definition byteAt (s : string) (i : Z) : N :=
  match String.get (Z.to_nat i) s with
  | Some c => N_of_ascii c
  | None => 0%N
  end.

(** ** Package [unicode/utf8] *)

Module Utf8.

Definition RuneError : N := 65533.
Definition RuneSelf : N := 128.
Definition MaxRune : N := 1114111.
Definition UTFMax : Z := 4.

(** The tables [first] and [acceptRanges] for a leading byte above 127:
    the length of the sequence and the range of its second byte; [None] for
    a byte that begins no sequence. *)
Definition lead (s0 : N) : option (nat * N * N) :=
  (if (194 <=? s0) && (s0 <=? 223) then Some (2%nat, 128, 191)
   else if s0 =? 224 then Some (3%nat, 160, 191)
   else if (225 <=? s0) && (s0 <=? 236) then Some (3%nat, 128, 191)
   else if s0 =? 237 then Some (3%nat, 128, 159)
   else if (238 <=? s0) && (s0 <=? 239) then Some (3%nat, 128, 191)
   else if s0 =? 240 then Some (4%nat, 144, 191)
   else if (241 <=? s0) && (s0 <=? 243) then Some (4%nat, 128, 191)
   else if s0 =? 244 then Some (4%nat, 128, 143)
   else None)%N.

(** A continuation byte: between [locb] and [hicb]. *)
Definition cont (b : N) : bool := ((128 <=? b) && (b <=? 191))%N.

(** [utf8.DecodeRuneInString]: the first rune of [s] and its width; an
    invalid or short sequence is [RuneError] of width 1. *)
Definition DecodeRuneInString (s : string) : N * nat :=
  match s with
  | EmptyString => (RuneError, O)
  | String c0 r0 =>
      let s0 := N_of_ascii c0 in
      if (s0 <? RuneSelf)%N then (s0, 1%nat)
      else
        match lead s0 with
        | None => (RuneError, 1%nat)
        | Some (sz, lo, hi) =>
            if (String.length s <? sz)%nat then (RuneError, 1%nat)
            else
              match r0 with
              | EmptyString => (RuneError, 1%nat)
              | String c1 r1 =>
                  let s1 := N_of_ascii c1 in
                  if ((s1 <? lo) || (hi <? s1))%N then (RuneError, 1%nat)
                  else if (sz <=? 2)%nat then
                    (N.lor (N.shiftl (N.land s0 31) 6) (N.land s1 63), 2%nat)
                  else
                    match r1 with
                    | EmptyString => (RuneError, 1%nat)
                    | String c2 r2 =>
                        let s2 := N_of_ascii c2 in
                        if negb (cont s2) then (RuneError, 1%nat)
                        else if (sz <=? 3)%nat then
                          (N.lor (N.shiftl (N.land s0 15) 12)
                             (N.lor (N.shiftl (N.land s1 63) 6) (N.land s2 63)),
                           3%nat)
                        else
                          match r2 with
                          | EmptyString => (RuneError, 1%nat)
                          | String c3 _ =>
                              let s3 := N_of_ascii c3 in
                              if negb (cont s3) then (RuneError, 1%nat)
                              else
                                (N.lor (N.shiftl (N.land s0 7) 18)
                                   (N.lor (N.shiftl (N.land s1 63) 12)
                                      (N.lor (N.shiftl (N.land s2 63) 6)
                                         (N.land s3 63))),
                                 4%nat)
                          end
                    end
              end
        end
  end.

(** [utf8.RuneStart]. *)
Definition RuneStart (b : N) : bool := negb (N.land b 192 =? 128)%N.

(** The loop of [DecodeLastRuneInString] that walks back from [start] to a
    byte that can begin a rune, not below [lim]. *)
Fixpoint back (fuel : nat) (s : string) (lim start : Z) : Z :=
  match fuel with
  | O => start
  | S fuel' =>
      if start <? lim then start
      else if RuneStart (byteAt s start) then start
      else back fuel' s lim (start - 1)
  end.

(** [utf8.DecodeLastRuneInString]: the last rune of [s] and its width. *)
Definition DecodeLastRuneInString (s : string) : N * nat :=
  let e := Z.of_nat (String.length s) in
  if e =? 0 then (RuneError, O)
  else
    let r := byteAt s (e - 1) in
    if (r <? RuneSelf)%N then (r, 1%nat)
    else
      let lim := Z.max 0 (e - UTFMax) in
      let start := Z.max 0 (back 4 s lim (e - 2)) in
      let '(r, size) := DecodeRuneInString (skip (Z.to_nat start) s) in
      if start + Z.of_nat size =? e then (r, size) else (RuneError, 1%nat).

Definition byte (n : N) : ascii := ascii_of_N (n mod 256).

(** [utf8.AppendRune]: the encoding of a rune; a surrogate or a value
    beyond [MaxRune] is encoded as [RuneError]. *)
Definition EncodeRune (r : N) : string :=
  let three (r : N) :=
    String (byte (N.lor 224 (N.shiftr r 12)))
      (String (byte (N.lor 128 (N.land (N.shiftr r 6) 63)))
         (String (byte (N.lor 128 (N.land r 63))) EmptyString)) in
  (if r <=? 127 then String (byte r) EmptyString
   else if r <=? 2047 then
     String (byte (N.lor 192 (N.shiftr r 6)))
       (String (byte (N.lor 128 (N.land r 63))) EmptyString)
   else if (MaxRune <? r) || ((55296 <=? r) && (r <=? 57343)) then three RuneError
   else if r <=? 65535 then three r
   else
     String (byte (N.lor 240 (N.shiftr r 18)))
       (String (byte (N.lor 128 (N.land (N.shiftr r 12) 63)))
          (String (byte (N.lor 128 (N.land (N.shiftr r 6) 63)))
             (String (byte (N.lor 128 (N.land r 63))) EmptyString))))%N.

Fixpoint runesFrom (fuel : nat) (s : string) : list N :=
  match fuel with
  | O => []
  | S fuel' =>
      match s with
      | EmptyString => []
      | String _ _ =>
          let '(r, size) := DecodeRuneInString s in
          r :: runesFrom fuel' (skip size s)
      end
  end.

(** The runes a [for ... range s] loop sees; every step takes a byte at
    least. *)
Definition runes (s : string) : list N := runesFrom (String.length s) s.

End Utf8.

(** ** Package [unicode] *)

(** The case table of the Go library is not part of the repository:
    [upperCase r] stands for [unicode.ToUpper(r)] on a rune above 127,
    whatever the table of the Go release in use says. *)
Class CaseTable := upperCase : N -> N.

(** A table without case pairs, for inputs in ASCII. *)
Definition sampleTable : CaseTable := fun r => r.

Module Unicode.

(** [unicode.IsSpace]: the white space of Latin-1, and beyond it the
    property [White_Space]. *)
Definition IsSpace (r : N) : bool :=
  (if r <=? 255 then
     ((9 <=? r) && (r <=? 13)) || (r =? 32) || (r =? 133) || (r =? 160)
   else
     (r =? 5760) || ((8192 <=? r) && (r <=? 8202)) || (r =? 8232) || (r =? 8233)
     || (r =? 8239) || (r =? 8287) || (r =? 12288))%N.

(** [unicode.ToUpper]. *)
Definition ToUpper `{CaseTable} (r : N) : N :=
  (if r <=? 127 then
     if (97 <=? r) && (r <=? 122) then r - 32 else r
   else upperCase r)%N.

End Unicode.

(** ** Package [strings] *)

Module Strings.

Fixpoint isASCII (s : string) : bool :=
  match s with
  | EmptyString => true
  | String c r => (N_of_ascii c <? Utf8.RuneSelf)%N && isASCII r
  end.

Fixpoint upperASCII (s : string) : string :=
  match s with
  | EmptyString => EmptyString
  | String c r => String (toUpperByte c) (upperASCII r)
  end.

(** [strings.Map] for a mapping without negative results: every rune of [s]
    is mapped and encoded.  The source copies an unchanged prefix as it is
    instead of encoding it again, which gives the same bytes. *)
Definition Map (mapping : N -> N) (s : string) : string :=
  fold_right (fun r out => Utf8.EncodeRune (mapping r) +:+ out) EmptyString
             (Utf8.runes s).

(** [strings.ToUpper]: byte by byte for a string in ASCII, by [Map] with
    [unicode.ToUpper] otherwise. *)
Definition ToUpper `{CaseTable} (s : string) : string :=
  if isASCII s then upperASCII s else Map Unicode.ToUpper s.

(** [strings.TrimLeftFunc(s, unicode.IsSpace)]. *)
Fixpoint trimLeft (fuel : nat) (s : string) : string :=
  match fuel with
  | O => s
  | S fuel' =>
      match s with
      | EmptyString => s
      | String _ _ =>
          let '(r, size) := Utf8.DecodeRuneInString s in
          if Unicode.IsSpace r then trimLeft fuel' (skip size s) else s
      end
  end.

(** [strings.TrimRightFunc(s, unicode.IsSpace)]. *)
Fixpoint trimRight (fuel : nat) (s : string) : string :=
  match fuel with
  | O => s
  | S fuel' =>
      match s with
      | EmptyString => s
      | String _ _ =>
          let '(r, size) := Utf8.DecodeLastRuneInString s in
          if Unicode.IsSpace r
          then trimRight fuel' (take (String.length s - size) s)
          else s
      end
  end.

(** [strings.TrimSpace]: leading and trailing Unicode white space removed.
    The source runs over ASCII bytes first and hands over to [TrimFunc] or
    [TrimRightFunc] at the first byte above 127, with the same result. *)
Definition TrimSpace (s : string) : string :=
  let s := trimLeft (String.length s) s in
  trimRight (String.length s) s.

Fixpoint HasPrefix (s prefix : string) {struct prefix} : bool :=
  match prefix, s with
  | EmptyString, _ => true
  | String a p, String b r => Ascii.eqb a b && HasPrefix r p
  | String _ _, EmptyString => false
  end.

(** [strings.Split(s, sep)] for a one-byte separator: the package only
    splits on [","] and [":"]. *)
Fixpoint Split (s : string) (sep : ascii) : list string :=
  match s with
  | EmptyString => [EmptyString]
  | String c r =>
      if Ascii.eqb c sep then EmptyString :: Split r sep
      else match Split r sep with
           | w :: ws => String c w :: ws
           | [] => [String c EmptyString]
           end
  end.

(** [strings.SplitN(s, sep, n)] for a one-byte separator and [n >= 0]:
    at most [n] pieces, the last one being the unsplit remainder. *)
Fixpoint SplitN (s : string) (sep : ascii) (n : nat) {struct s} : list string :=
  match n with
  | O => []
  | S O => [s]
  | S n' =>
      match s with
      | EmptyString => [EmptyString]
      | String c r =>
          if Ascii.eqb c sep then EmptyString :: SplitN r sep n'
          else match SplitN r sep n with
               | w :: ws => String c w :: ws
               | [] => [String c EmptyString]
               end
      end
  end.

Fixpoint Join (elems : list string) (sep : string) : string :=
  match elems with
  | [] => EmptyString
  | [x] => x
  | x :: r => x +:+ sep +:+ Join r sep
  end.

End Strings.

(** ** Errors

    [error.go] and the errors built with [fmt.Errorf] in the package, next to
    the errors of the library calls.  A [ParseError] records the type of the
    field itself where the source records its printed name. *)

Inductive NumErr := ErrSyntax | ErrRange.

Section Errors.
Context {TypeDesc : Type}.

Inductive error :=
| ErrInvalidSpecification
    (* "specification must be a struct pointer" *)
| ErrFileEnvEmpty (tagValue : string)
    (* "environment vairable %s is empty" *)
| ErrReadFile (path : string)
    (* the error of os.ReadFile *)
| ErrRequiredKey (key : string)
    (* "required key %s missing value" *)
| ErrInvalidMapItem (pair : string)
    (* "invalid map item: %q" *)
| ErrUnknownEnv (v : string)
    (* "unknown environment variable %s" *)
| ErrNum (fn : string) (num : string) (e : NumErr)
    (* *strconv.NumError *)
| ErrOther (msg : string)
    (* an error of a library parser or of a custom decoder *)
| ParseError (KeyName FieldName : string) (TypeName : TypeDesc)
             (Value : string) (Err : error).
End Errors.
Arguments error : clear implicits.

(** ** Package [strconv] *)

Module Strconv.

(** [strconv.ParseBool]. *)
Definition ParseBool (s : string) : option bool :=
  if (String.eqb s "1" || String.eqb s "t" || String.eqb s "T"
      || String.eqb s "TRUE" || String.eqb s "true" || String.eqb s "True")%bool
  then Some true
  else if (String.eqb s "0" || String.eqb s "f" || String.eqb s "F"
      || String.eqb s "FALSE" || String.eqb s "false" || String.eqb s "False")%bool
  then Some false
  else None.

(** The value of a digit byte, any letter counting from 10. *)
Definition digitVal (c : ascii) : option Z :=
  if isDigit09 c then Some (Z.of_N (N_of_ascii c) - 48)
  else if isLowerAZ (lower c) then Some (Z.of_N (N_of_ascii (lower c)) - 97 + 10)
  else None.

(** The state [saw] of [underscoreOK]. *)
Inductive Saw := SawStart | SawDigit | SawUnderscore | SawOther.

Fixpoint underscoreLoop (hex : bool) (saw : Saw) (s : string) : bool :=
  match s with
  | EmptyString => match saw with SawUnderscore => false | _ => true end
  | String c r =>
      if (isDigit09 c || (hex && byte_in 97 102 (lower c)))%bool
      then underscoreLoop hex SawDigit r
      else if Ascii.eqb c "_"
      then match saw with
           | SawDigit => underscoreLoop hex SawUnderscore r
           | _ => false
           end
      else match saw with
           | SawUnderscore => false
           | _ => underscoreLoop hex SawOther r
           end
  end.

Definition isBasePrefix (c : ascii) : bool :=
  (Ascii.eqb (lower c) "b" || Ascii.eqb (lower c) "o" || Ascii.eqb (lower c) "x")%bool.

(** [underscoreOK]: underscores only between digits or after a base
    prefix. *)
Definition underscoreOK (s : string) : bool :=
  let s := match s with
           | String c r => if (Ascii.eqb c "-" || Ascii.eqb c "+")%bool then r else s
           | EmptyString => s
           end in
  match s with
  | String "0" (String c r) =>
      if isBasePrefix c
      then underscoreLoop (Ascii.eqb (lower c) "x") SawDigit r
      else underscoreLoop false SawStart s
  | _ => underscoreLoop false SawStart s
  end.

(** The digit loop of [ParseUint]: [None] on a bad digit, otherwise the
    number, or the range error once it passes [maxVal]. *)
Fixpoint digits (base0 : bool) (base maxVal : Z) (n : Z) (under : bool)
         (s : string) : option (NumErr + (Z * bool)) :=
  match s with
  | EmptyString => Some (inr (n, under))
  | String c r =>
      if (Ascii.eqb c "_" && base0)%bool then digits base0 base maxVal n true r
      else match digitVal c with
           | None => None
           | Some d =>
               if base <=? d then None
               else if maxVal <? n * base + d then Some (inl ErrRange)
               else digits base0 base maxVal (n * base + d) under r
           end
  end.

(** [strconv.ParseUint(s, 0, bitSize)]. *)
Definition ParseUint0 (s : string) (bitSize : Z) : NumErr + Z :=
  match s with
  | EmptyString => inl ErrSyntax
  | String c0 r0 =>
      let '(base, body) :=
        if Ascii.eqb c0 "0" then
          match r0 with
          | String c1 (String c2 r2) =>
              if Ascii.eqb (lower c1) "b" then (2, String c2 r2)
              else if Ascii.eqb (lower c1) "o" then (8, String c2 r2)
              else if Ascii.eqb (lower c1) "x" then (16, String c2 r2)
              else (8, r0)
          | _ => (8, r0)
          end
        else (10, s) in
      match digits true base (2 ^ bitSize - 1) 0 false body with
      | None => inl ErrSyntax
      | Some (inl e) => inl e
      | Some (inr (n, under)) =>
          if (under && negb (underscoreOK s))%bool then inl ErrSyntax else inr n
      end
  end.

(** [strconv.ParseInt(s, 0, bitSize)]. *)
Definition ParseInt0 (s : string) (bitSize : Z) : NumErr + Z :=
  match s with
  | EmptyString => inl ErrSyntax
  | String c0 r0 =>
      let '(neg, body) :=
        if Ascii.eqb c0 "+" then (false, r0)
        else if Ascii.eqb c0 "-" then (true, r0)
        else (false, s) in
      match ParseUint0 body bitSize with
      | inl ErrSyntax => inl ErrSyntax
      | inl ErrRange => inl ErrRange
      | inr un =>
          let cutoff := 2 ^ (bitSize - 1) in
          if (negb neg && (cutoff <=? un))%bool then inl ErrRange
          else if (neg && (cutoff <? un))%bool then inl ErrRange
          else inr (if neg then - un else un)
      end
  end.

End Strconv.

(** ** Package [regexp]

    The two expressions of [variable.go] are built from byte classes, greedy
    repetition of a class, concatenation, ordered alternation and capture
    groups.  [run] is a backtracking matcher in continuation style; it
    prefers the left alternative and the longest repetition, which is the
    leftmost-first match Go returns.  No expression used here matches the
    empty string. *)

Module Regexp.

Inductive re :=
| Cls (p : ascii -> bool)
| Plus (p : ascii -> bool)
| Cat (r1 r2 : re)
| Alt (r1 r2 : re)
| Grp (n : nat) (r : re).

Definition captures := list (nat * string).

(** The text between position [s] and the later position [s']. *)
Definition consumed (s s' : string) : string :=
  String.substring 0 (String.length s - String.length s') s.

Section Run.
Context {R : Type}.

Fixpoint star (p : ascii -> bool) (s : string) (k : string -> option R)
  : option R :=
  match s with
  | String c r =>
      if p c then
        match star p r k with
        | Some x => Some x
        | None => k s
        end
      else k s
  | EmptyString => k s
  end.

Fixpoint run (r : re) (s : string) (caps : captures)
         (k : string -> captures -> option R) : option R :=
  match r with
  | Cls p =>
      match s with
      | String c s' => if p c then k s' caps else None
      | EmptyString => None
      end
  | Plus p =>
      match s with
      | String c s' => if p c then star p s' (fun s'' => k s'' caps) else None
      | EmptyString => None
      end
  | Cat r1 r2 => run r1 s caps (fun s' caps' => run r2 s' caps' k)
  | Alt r1 r2 =>
      match run r1 s caps k with
      | Some x => Some x
      | None => run r2 s caps k
      end
  | Grp n r => run r s caps (fun s' caps' => k s' ((n, consumed s s') :: caps'))
  end.
End Run.

Fixpoint ngroups (r : re) : nat :=
  match r with
  | Cls _ | Plus _ => 0%nat
  | Cat r1 r2 | Alt r1 r2 => Nat.max (ngroups r1) (ngroups r2)
  | Grp n r => Nat.max n (ngroups r)
  end.

Fixpoint group (caps : captures) (n : nat) : string :=
  match caps with
  | [] => EmptyString
  | (m, t) :: rest => if Nat.eqb m n then t else group rest n
  end.

(** A match anchored at the start of [s]: the submatches [m[0], m[1], ...]
    and the text after the match. *)
Definition matchAt (r : re) (s : string) : option (list string * string) :=
  run r s []
      (fun s' caps =>
         Some (consumed s s' :: map (group caps) (seq 1 (ngroups r)), s')).

(** [Regexp.FindStringSubmatch]: the leftmost match, [None] for nil. *)
Fixpoint FindStringSubmatch (r : re) (s : string) : option (list string) :=
  match matchAt r s with
  | Some (m, _) => Some m
  | None =>
      match s with
      | String _ s' => FindStringSubmatch r s'
      | EmptyString => None
      end
  end.

Fixpoint findAll (fuel : nat) (r : re) (s : string) : list (list string) :=
  match fuel with
  | O => []
  | S fuel' =>
      match matchAt r s with
      | Some (m, rest) =>
          if (String.length rest <? String.length s)%nat
          then m :: findAll fuel' r rest
          else match s with
               | String _ s' => m :: findAll fuel' r s'
               | EmptyString => [m]
               end
      | None =>
          match s with
          | String _ s' => findAll fuel' r s'
          | EmptyString => []
          end
      end
  end.

(** [Regexp.FindAllStringSubmatch(s, -1)]: successive matches, none of
    them overlapping.  Every step consumes a byte, so [length s + 1] steps
    are enough. *)
Definition FindAllStringSubmatch (r : re) (s : string) : list (list string) :=
  findAll (S (String.length s)) r s.

End Regexp.

(** ** Package [os] *)

Module Os.

(** The environment: its entries [NAME=value] in enumeration order. *)
Definition Environ := list string.

(** [os.LookupEnv]: the value of the first entry named [key]. *)
Fixpoint LookupEnv (environ : Environ) (key : string) : option string :=
  match environ with
  | [] => None
  | e :: rest =>
      match Strings.SplitN e "=" 2 with
      | [n; v] =>
          if (String.eqb n key && negb (String.eqb key ""))%bool then Some v
          else LookupEnv rest key
      | _ => LookupEnv rest key
      end
  end.

(** The file system, and [os.ReadFile] on it: [None] is a failed read. *)
Definition Files := gmap string string.

Definition ReadFile (fs : Files) (name : string) : option string := fs !! name.

End Os.

(** * The package

    Everything below depends on the case table through [strings.ToUpper]. *)

Section Envconfig.
Context {caseTable : CaseTable}.

(** ** [options.go] *)

Definition DefaultFileSuffix : string := "_FILE".

Record options := mkOptions {
  prefix : string;
  isLoadFromFile : bool;
  defaultFileSuffix : string;
  trimSpaces : bool
}.

(** An [Option] updates the options; the source does it through a pointer. *)
Definition Option := options -> options.

Definition defaultOptions : options :=
  {| prefix := "";
     isLoadFromFile := true;
     defaultFileSuffix := DefaultFileSuffix;
     trimSpaces := true |}.

Definition apply (o : options) (opts : list Option) : options :=
  fold_left (fun o opt => opt o) opts o.

(** [options.copy]: the composite literal names three of the four fields,
    the fourth takes the zero value of [bool]. *)
Definition copy (o : options) : options :=
  {| prefix := prefix o;
     isLoadFromFile := isLoadFromFile o;
     defaultFileSuffix := defaultFileSuffix o;
     trimSpaces := false |}.

Definition set_prefix (p : string) (o : options) : options :=
  {| prefix := p;
     isLoadFromFile := isLoadFromFile o;
     defaultFileSuffix := defaultFileSuffix o;
     trimSpaces := trimSpaces o |}.

Definition WithPrefix (p : string) : Option :=
  set_prefix (Strings.ToUpper p).

Definition WithoutDefaultLoadingFromFiles : Option :=
  fun o => {| prefix := prefix o;
              isLoadFromFile := false;
              defaultFileSuffix := defaultFileSuffix o;
              trimSpaces := trimSpaces o |}.

Definition WithDefaultFileSuffix (suffix : string) : Option :=
  let suffix := Strings.TrimSpace suffix in
  let suffix := if String.eqb suffix "" then DefaultFileSuffix else suffix in
  fun o => {| prefix := prefix o;
              isLoadFromFile := isLoadFromFile o;
              defaultFileSuffix := suffix;
              trimSpaces := trimSpaces o |}.

Definition WithoutTrimSpaces : Option :=
  fun o => {| prefix := prefix o;
              isLoadFromFile := isLoadFromFile o;
              defaultFileSuffix := defaultFileSuffix o;
              trimSpaces := false |}.

(** ** Struct tags and field descriptors *)

Definition TagEnvconfig : string := "envconfig".
Definition TagIgnored : string := "ignored".
Definition TagDefault : string := "default".
Definition TagSplitWords : string := "split_words".
Definition TagRequired : string := "required".
Definition TagFile : string := "file".

(** A [reflect.StructTag], parsed: its [key:"value"] pairs in order. *)
Definition StructTag := list (string * string).

Fixpoint Lookup (tag : StructTag) (key : string) : option string :=
  match tag with
  | [] => None
  | (k, v) :: rest => if String.eqb k key then Some v else Lookup rest key
  end.

Definition Get (tag : StructTag) (key : string) : string :=
  match Lookup tag key with
  | Some v => v
  | None => ""
  end.

(** A [reflect.StructField] without its type. *)
Record StructField := mkStructField {
  Name : string;
  Tag : StructTag;
  Anonymous : bool;
  Exported : bool
}.

Definition isTrue (s : string) : bool :=
  match Strconv.ParseBool s with
  | Some b => b
  | None => false
  end.

(** ** [variable.go]: keys *)

Definition notUpperAZ (c : ascii) : bool := negb (isUpperAZ c).

(** [([^A-Z]+|[A-Z]+[^A-Z]+|[A-Z]+)] *)
Definition gatherRegexp : Regexp.re :=
  Regexp.Grp 1
    (Regexp.Alt (Regexp.Plus notUpperAZ)
       (Regexp.Alt (Regexp.Cat (Regexp.Plus isUpperAZ) (Regexp.Plus notUpperAZ))
          (Regexp.Plus isUpperAZ))).

(** [([A-Z]+)([A-Z][^A-Z]+)] *)
Definition acronymRegexp : Regexp.re :=
  Regexp.Cat (Regexp.Grp 1 (Regexp.Plus isUpperAZ))
    (Regexp.Grp 2 (Regexp.Cat (Regexp.Cls isUpperAZ) (Regexp.Plus notUpperAZ))).

Definition splitWords (s : string) : list string :=
  let matches := Regexp.FindAllStringSubmatch gatherRegexp s in
  fold_left
    (fun out words =>
       let w0 := hd "" words in
       match Regexp.FindStringSubmatch acronymRegexp w0 with
       | Some [_; m1; m2] => out ++ [m1; m2]
       | _ => out ++ [w0]
       end)
    matches [].

Definition resolveKey (prefix : string) (fieldType : StructField)
  : string * string :=
  let altKey := Strings.TrimSpace (Get (Tag fieldType) TagEnvconfig) in
  let '(key, altKey) :=
    if negb (String.eqb altKey "") then
      (Strings.ToUpper altKey, Strings.ToUpper altKey)
    else if isTrue (Get (Tag fieldType) TagSplitWords) then
      (Strings.Join (splitWords (Name fieldType)) "_", altKey)
    else
      (Name fieldType, altKey) in
  let key := if negb (String.eqb prefix "") then prefix +:+ "_" +:+ key else key in
  (Strings.ToUpper key, altKey).

(** ** Types and values

    [Val] is what a [reflect.Value] holds, [Ty] what its [reflect.Type]
    says.  A nil pointer, a nil slice and a nil map are [VNil]; a non-nil
    pointer is [VPtr] around its pointee; an empty non-nil slice or map is
    [VSlice []] or [VMap []].  A map is the list of its entries, every key at
    most once.  A float is kept as the number its parser returned. *)

#[warnings="-register-all"]
Inductive Val :=
| VNil
| VString (s : string)
| VBool (b : bool)
| VInt (n : Z)
| VUint (n : Z)
| VFloat (f : Z)
| VSlice (elems : list Val)
| VMap (entries : list (Val * Val))
| VPtr (pointee : Val)
| VStruct (fields : list Val).

(** A method [Decode], [Set], [UnmarshalText] or [UnmarshalBinary]: from
    the string and the receiver to the receiver afterwards and the error
    message, if any. *)
Definition Method := string -> Val -> Val * option string.

Record Methods := mkMethods {
  mDecode : option Method;
  mSet : option Method;
  mUnmarshalText : option Method;
  mUnmarshalBinary : option Method
}.

Definition noMethods : Methods := mkMethods None None None None.

(** [TNamed u m] is a defined type with underlying type [u] (not a pointer
    type: those have no methods) and methods [m]; a defined type without any
    of the four methods can be written as its underlying type.  [TDuration]
    is [time.Duration].  [TOther] stands for the kinds the package has no
    case for (arrays, channels, functions, interfaces, complex numbers). *)
Inductive Ty :=
| TString
| TBool
| TInt (bits : Z)
| TUint (bits : Z)
| TFloat (bits : Z)
| TDuration
| TSlice (elem : Ty)
| TMap (key elem : Ty)
| TPtr (elem : Ty)
| TStruct (fields : Fields)
| TNamed (under : Ty) (methods : Methods)
| TOther
with Fields :=
| FNil
| FCons (f : StructField) (t : Ty) (rest : Fields).

Inductive Kind :=
| KString | KBool | KInt (bits : Z) | KUint (bits : Z) | KFloat (bits : Z)
| KSlice | KMap | KPtr | KStruct | KOther.

Fixpoint kindOf (t : Ty) : Kind :=
  match t with
  | TString => KString
  | TBool => KBool
  | TInt b => KInt b
  | TUint b => KUint b
  | TFloat b => KFloat b
  | TDuration => KInt 64
  | TSlice _ => KSlice
  | TMap _ _ => KMap
  | TPtr _ => KPtr
  | TStruct _ => KStruct
  | TNamed u _ => kindOf u
  | TOther => KOther
  end.

Definition isStruct (t : Ty) : bool :=
  match kindOf t with KStruct => true | _ => false end.

Definition isUint8 (t : Ty) : bool :=
  match kindOf t with KUint b => b =? 8 | _ => false end.

(** The zero value of a type, as [reflect.New] and [reflect.MakeSlice]
    produce it. *)
Fixpoint zero (t : Ty) : Val :=
  match t with
  | TString => VString ""
  | TBool => VBool false
  | TInt _ | TDuration => VInt 0
  | TUint _ => VUint 0
  | TFloat _ => VFloat 0
  | TSlice _ | TMap _ _ | TPtr _ | TOther => VNil
  | TStruct fs => VStruct (zeroFields fs)
  | TNamed u _ => zero u
  end
with zeroFields (fs : Fields) : list Val :=
  match fs with
  | FNil => []
  | FCons _ t rest => zero t :: zeroFields rest
  end.

Definition Error := error Ty.

(** A field inside the value of the specification struct. *)
Inductive Step := SField (i : nat) | SDeref.
Definition Path := list Step.

Fixpoint getAt (v : Val) (p : Path) : Val :=
  match p with
  | [] => v
  | SField i :: p' =>
      match v with
      | VStruct fs => match fs !! i with Some x => getAt x p' | None => VNil end
      | _ => VNil
      end
  | SDeref :: p' =>
      match v with
      | VPtr x => getAt x p'
      | _ => VNil
      end
  end.

Fixpoint setAt (v : Val) (p : Path) (new : Val) : Val :=
  match p with
  | [] => new
  | SField i :: p' =>
      match v with
      | VStruct fs =>
          match fs !! i with
          | Some x => VStruct (<[i := setAt x p' new]> fs)
          | None => v
          end
      | _ => v
      end
  | SDeref :: p' =>
      match v with
      | VPtr x => VPtr (setAt x p' new)
      | _ => v
      end
  end.

(** ** [variable.go]: the variable and the walk *)

Record variable := mkVariable {
  key : string;
  altKey : string;
  fieldType : StructField;
  field : Path;
  typ : Ty;
  Opts : options
}.

(** The first of the four methods a type has, in the order the package asks
    for them. *)
Definition firstMethod (m : Methods) : option Method :=
  match mDecode m with
  | Some f => Some f
  | None =>
      match mSet m with
      | Some f => Some f
      | None =>
          match mUnmarshalText m with
          | Some f => Some f
          | None => mUnmarshalBinary m
          end
      end
  end.

(** [decoderFrom], [setterFrom], [textUnmarshaler], [binaryUnmarshaler] in
    turn: the methods of the type of the field or, through [Addr], of the
    pointer to it; a pointer has the methods of its element type. *)
Definition methodFrom (t : Ty) : option Method :=
  match t with
  | TNamed _ m => firstMethod m
  | TPtr (TNamed _ m) => firstMethod m
  | _ => None
  end.

(** Lines 81 to 84 of [gatherInfo]: the options of the nested walk. *)
Definition innerOptions (opts : options) (fieldType : StructField) (key : string)
  : options :=
  let innerOpts := copy opts in
  if negb (Anonymous fieldType) then set_prefix key innerOpts else innerOpts.

(** The body of the loop of [gatherInfo] for one settable field
    ([walkField]) and the loop itself ([gatherFields]).  The recursive call
    of the source goes through [gatherInfo] on [field.Addr()], whose two
    checks then pass; it is the call of [gatherFields] here.  Both return
    the variables and the value after the allocation of nil pointers. *)
Fixpoint walkField (opts : options) (ft : StructField) (t : Ty) (v : Val)
         (loc : Path) {struct t} : list variable * Val :=
  let leaf :=
    {| key := fst (resolveKey (prefix opts) ft);
       altKey := snd (resolveKey (prefix opts) ft);
       fieldType := ft; field := loc; typ := t; Opts := opts |} in
  match t with
  | TPtr e =>
      match v with
      | VPtr x =>
          let '(vars, x') := walkField opts ft e x (loc ++ [SDeref]) in
          (vars, VPtr x')
      | _ =>
          if isStruct e then
            let '(vars, x') := walkField opts ft e (zero e) (loc ++ [SDeref]) in
            (vars, VPtr x')
          else ([leaf], v)
      end
  | TStruct fs =>
      let innerOpts := innerOptions opts ft (key leaf) in
      let vs := match v with VStruct vs => vs | _ => [] end in
      let '(vars, vs') := gatherFields innerOpts fs vs loc 0 in
      (vars, VStruct vs')
  | TNamed u m =>
      match firstMethod m with
      | Some _ => ([leaf], v)
      | None => walkField opts ft u v loc
      end
  | _ => ([leaf], v)
  end
with gatherFields (opts : options) (fs : Fields) (vs : list Val) (loc : Path)
       (i : nat) {struct fs} : list variable * list Val :=
  match fs with
  | FNil => ([], [])
  | FCons ft t rest =>
      let v := match vs with v :: _ => v | [] => zero t end in
      let '(vars1, v') :=
        if (negb (Exported ft) || isTrue (Get (Tag ft) TagIgnored))%bool
        then ([], v)
        else walkField opts ft t v (loc ++ [SField i]) in
      let '(vars2, vs2) := gatherFields opts rest (tl vs) loc (S i) in
      (vars1 ++ vars2, v' :: vs2)
  end.

Fixpoint structFields (t : Ty) : option Fields :=
  match t with
  | TStruct fs => Some fs
  | TNamed u _ => structFields u
  | _ => None
  end.

(** [gatherInfo(spec, opts)], [spec] being a value [specVal] of type
    [specTy]: the variables, and the struct [spec] points to afterwards. *)
Definition gatherInfo (specTy : Ty) (specVal : Val) (opts : options)
  : Error + (list variable * Val) :=
  match specTy, specVal with
  | TPtr e, VPtr (VStruct vs) =>
      match structFields e with
      | Some fs =>
          let '(vars, vs') := gatherFields opts fs vs [] 0 in
          inr (vars, VStruct vs')
      | None => inl ErrInvalidSpecification
      end
  | _, _ => inl ErrInvalidSpecification
  end.

Definition isRequired (v : variable) : bool :=
  isTrue (Get (Tag (fieldType v)) TagRequired).

(** ** [variable.go]: the value of a variable

    The functions read the environment [env] and the files [fs].  They
    return the three results of the source: the value, whether one was
    loaded, and the error. *)

Section Resolver.
Variable env : Os.Environ.
Variable fs : Os.Files.

Definition resolveFileLoading (v : variable) : string * bool :=
  match Lookup (Tag (fieldType v)) TagFile with
  | Some tagFileValue =>
      match Strconv.ParseBool tagFileValue with
      | Some tagFileBool => if tagFileBool then ("", true) else ("", false)
      | None => (tagFileValue, true)
      end
  | None => if isLoadFromFile (Opts v) then ("", true) else ("", false)
  end.

(** The suffix [loadFromFile] appends to the name, given the first result
    of [resolveFileLoading]. *)
Definition fileSuffix (v : variable) (tagValue : string) : string :=
  let tagValue := Strings.TrimSpace tagValue in
  if String.eqb tagValue "" then defaultFileSuffix (Opts v) else tagValue.

(** The name of the variable that holds the path. *)
Definition fileEnvName (v : variable) (envName : string) : string :=
  Strings.ToUpper (envName +:+ fileSuffix v (fst (resolveFileLoading v))).

Definition loadFromFile (v : variable) (envName : string)
  : string * bool * option Error :=
  let '(tagValue, needLoad) := resolveFileLoading v in
  if negb needLoad then ("", false, None)
  else
    let tagValue := fileSuffix v tagValue in
    let fileEnvName := Strings.ToUpper (envName +:+ tagValue) in
    match Os.LookupEnv env fileEnvName with
    | Some filePath =>
        let filePath := Strings.TrimSpace filePath in
        if String.eqb filePath "" then ("", false, Some (ErrFileEnvEmpty tagValue))
        else
          match Os.ReadFile fs filePath with
          | None => ("", false, Some (ErrReadFile filePath))
          | Some bytes => (bytes, true, None)
          end
    | None => ("", false, None)
    end.

Definition tryEnv (v : variable) (envName : string)
  : string * bool * option Error :=
  match Os.LookupEnv env envName with
  | Some value => (value, true, None)
  | None => loadFromFile v envName
  end.

Definition envNames (v : variable) : list string :=
  if negb (String.eqb (altKey v) "") then [key v; altKey v] else [key v].

(** The loop of [value]: it stops at the first error or loaded value. *)
Fixpoint tryNames (v : variable) (names : list string)
  : string * bool * option Error :=
  match names with
  | [] => ("", false, None)
  | envName :: rest =>
      match tryEnv v envName with
      | (value, isLoaded, Some err) => (value, isLoaded, Some err)
      | (value, true, None) => (value, true, None)
      | (_, false, None) => tryNames v rest
      end
  end.

Definition value (v : variable) : string * bool * option Error :=
  match tryNames v (envNames v) with
  | (value, isLoaded, Some err) => (value, isLoaded, Some err)
  | (value, true, None) =>
      (if trimSpaces (Opts v) then Strings.TrimSpace value else value, true, None)
  | (_, false, None) =>
      match Lookup (Tag (fieldType v)) TagDefault with
      | Some d => (d, true, None)
      | None => ("", false, None)
      end
  end.

End Resolver.

(** ** [process.go]: coercion *)

Definition bytesOf (s : string) : list Val :=
  map (fun c => VUint (Z.of_N (N_of_ascii c))) (list_ascii_of_string s).

(** Equality of map keys; two pointers are never the same key, each one
    being freshly allocated. *)
Fixpoint keyEqb (a b : Val) : bool :=
  match a, b with
  | VString x, VString y => String.eqb x y
  | VBool x, VBool y => Bool.eqb x y
  | VInt x, VInt y | VUint x, VUint y | VFloat x, VFloat y => x =? y
  | VStruct xs, VStruct ys =>
      (fix all2 (xs ys : list Val) : bool :=
         match xs, ys with
         | [], [] => true
         | x :: xs', y :: ys' => keyEqb x y && all2 xs' ys'
         | _, _ => false
         end) xs ys
  | _, _ => false
  end.

(** [mp.SetMapIndex(k, v)]. *)
Fixpoint SetMapIndex (mp : list (Val * Val)) (k v : Val) : list (Val * Val) :=
  match mp with
  | [] => [(k, v)]
  | (k', v') :: rest =>
      if keyEqb k' k then (k, v) :: rest else (k', v') :: SetMapIndex rest k v
  end.

Section Coercer.
(** [strconv.ParseFloat(s, bits)] and [time.ParseDuration(s)]: the number,
    or the message of the error. *)
Variable ParseFloat : string -> Z -> string + Z.
Variable ParseDuration : string -> string + Z.

(** [processField] up to its [switch], over the function [assign] that is
    the [switch]. *)
Definition processFieldWith (assign : string -> Ty -> Val -> Val * option Error)
           (value : string) (t : Ty) (field : Val) : Val * option Error :=
  match methodFrom t with
  | Some f =>
      let '(field', err) := f value field in
      (field', option_map ErrOther err)
  | None =>
      match t with
      | TPtr e =>
          let pointee := match field with VPtr x => x | _ => zero e end in
          let '(pointee', err) := assign value e pointee in
          (VPtr pointee', err)
      | _ => assign value t field
      end
  end.

(** The elements of a slice: the first error ends the loop. *)
Fixpoint elements (pf : string -> Val * option Error) (vals : list string)
  : Error + list Val :=
  match vals with
  | [] => inr []
  | val :: rest =>
      match pf val with
      | (_, Some err) => inl err
      | (x, None) =>
          match elements pf rest with
          | inl err => inl err
          | inr xs => inr (x :: xs)
          end
      end
  end.

(** The entries of a map, added to [mp] pair by pair. *)
Fixpoint entries (pk pv : string -> Val * option Error)
         (mp : list (Val * Val)) (pairs : list string)
  : Error + list (Val * Val) :=
  match pairs with
  | [] => inr mp
  | item :: rest =>
      match Strings.Split item ":" with
      | [k0; v0] =>
          match pk k0 with
          | (_, Some err) => inl err
          | (k, None) =>
              match pv v0 with
              | (_, Some err) => inl err
              | (v, None) => entries pk pv (SetMapIndex mp k v) rest
              end
          end
      | _ => inl (ErrInvalidMapItem item)
      end
  end.

(** The [switch typ.Kind()] of [processField]. *)
Fixpoint assign (value : string) (t : Ty) (field : Val) {struct t}
  : Val * option Error :=
  match t with
  | TString => (VString value, None)
  | TInt bits =>
      match Strconv.ParseInt0 value bits with
      | inr n => (VInt n, None)
      | inl e => (field, Some (ErrNum "ParseInt" value e))
      end
  | TDuration =>
      match ParseDuration value with
      | inr n => (VInt n, None)
      | inl msg => (field, Some (ErrOther msg))
      end
  | TUint bits =>
      match Strconv.ParseUint0 value bits with
      | inr n => (VUint n, None)
      | inl e => (field, Some (ErrNum "ParseUint" value e))
      end
  | TBool =>
      match Strconv.ParseBool value with
      | Some b => (VBool b, None)
      | None => (field, Some (ErrNum "ParseBool" value ErrSyntax))
      end
  | TFloat bits =>
      match ParseFloat value bits with
      | inr f => (VFloat f, None)
      | inl msg => (field, Some (ErrOther msg))
      end
  | TSlice elem =>
      if isUint8 elem then (VSlice (bytesOf value), None)
      else if negb (String.eqb (Strings.TrimSpace value) "") then
        let vals := Strings.Split value "," in
        match elements (fun val => processFieldWith assign val elem (zero elem)) vals with
        | inl err => (field, Some err)
        | inr sl => (VSlice sl, None)
        end
      else (VSlice [], None)
  | TMap kt et =>
      if negb (String.eqb (Strings.TrimSpace value) "") then
        let pairs := Strings.Split value "," in
        match entries (fun s => processFieldWith assign s kt (zero kt))
                      (fun s => processFieldWith assign s et (zero et))
                      [] pairs with
        | inl err => (field, Some err)
        | inr mp => (VMap mp, None)
        end
      else (VMap [], None)
  | TNamed u _ => assign value u field
  | TPtr _ | TStruct _ | TOther => (field, None)
  end.

Definition processField : string -> Ty -> Val -> Val * option Error :=
  processFieldWith assign.

(** ** [process.go]: [Process] and [CheckDisallowed] *)

Variable env : Os.Environ.
Variable fs : Os.Files.

(** The loop of [Process] over the variables, on the struct [root]. *)
Fixpoint processVars (vars : list variable) (root : Val) : Val * option Error :=
  match vars with
  | [] => (root, None)
  | v :: rest =>
      match value env fs v with
      | (_, _, Some valueErr) => (root, Some valueErr)
      | (_, false, None) =>
          if isRequired v then (root, Some (ErrRequiredKey (key v)))
          else processVars rest root
      | (value, true, None) =>
          let '(new, valueErr) := processField value (typ v) (getAt root (field v)) in
          let root := setAt root (field v) new in
          match valueErr with
          | Some err =>
              (root, Some (ParseError (key v) (Name (fieldType v)) (typ v) value err))
          | None => processVars rest root
          end
      end
  end.

(** [Process(spec, optsValues...)]: the struct [spec] points to afterwards
    and the error. *)
Definition Process (specTy : Ty) (specVal : Val) (optsValues : list Option)
  : Val * option Error :=
  let opts := apply defaultOptions optsValues in
  match gatherInfo specTy specVal opts with
  | inl err => (specVal, Some err)
  | inr (vars, root) =>
      let '(root', err) := processVars vars root in
      (VPtr root', err)
  end.

End Coercer.

(** The prefix [CheckDisallowed] filters the environment with. *)
Definition disallowedPrefix (opts : options) : string :=
  if negb (String.eqb (prefix opts) "")
  then Strings.ToUpper (prefix opts) +:+ "_"
  else prefix opts.

(** The loop of [CheckDisallowed] over [os.Environ()]. *)
Fixpoint checkEnviron (vars : gset string) (prefix : string) (environ : Os.Environ)
  : option Error :=
  match environ with
  | [] => None
  | env :: rest =>
      if negb (Strings.HasPrefix env prefix) then checkEnviron vars prefix rest
      else
        let v := hd "" (Strings.SplitN env "=" 2) in
        if bool_decide (v ∈ vars) then checkEnviron vars prefix rest
        else Some (ErrUnknownEnv v)
  end.

(** [CheckDisallowed(spec, optsValues...)]; the set [vars] is the map of the
    source. *)
Definition CheckDisallowed (environ : Os.Environ) (specTy : Ty) (specVal : Val)
           (optsValues : list Option) : option Error :=
  let opts := apply defaultOptions optsValues in
  match gatherInfo specTy specVal opts with
  | inl err => Some err
  | inr (infos, _) =>
      let vars : gset string := list_to_set (map key infos) in
      checkEnviron vars (disallowedPrefix opts) environ
  end.

(** * The statements of the specification

    Definitions written after the words of the specification, to be compared
    with the functions above. *)

(** The places a value can come from, in the order of precedence. *)
Inductive Source :=
| FromEnv (name : string)
| FromFile (name : string)
| FromDefault.

(** Key, file of the key, alternate key (when the variable has one), file of
    the alternate key, default. *)
Definition precedence (v : variable) : list Source :=
  [FromEnv (key v); FromFile (key v)]
  ++ (if String.eqb (altKey v) "" then [] else [FromEnv (altKey v); FromFile (altKey v)])
  ++ [FromDefault].

Definition trimmed (v : variable) (s : string) : string :=
  if trimSpaces (Opts v) then Strings.TrimSpace s else s.

Definition tagDefault (v : variable) : string * bool * option Error :=
  match Lookup (Tag (fieldType v)) TagDefault with
  | Some d => (d, true, None)
  | None => ("", false, None)
  end.

(** The suffix of the derived variable as C4 states it: the string of the
    [file] tag when it is no boolean, the default suffix of the options
    otherwise. *)
Definition statedSuffix (v : variable) : string :=
  match Lookup (Tag (fieldType v)) TagFile with
  | Some t =>
      match Strconv.ParseBool t with
      | None => t
      | Some _ => defaultFileSuffix (Opts v)
      end
  | None => defaultFileSuffix (Opts v)
  end.

(** The same with the amendment: the string of the tag is trimmed, and a
    blank one gives way to the default suffix. *)
Definition tagSuffix (v : variable) : string :=
  match Lookup (Tag (fieldType v)) TagFile with
  | Some t =>
      match Strconv.ParseBool t with
      | None =>
          if String.eqb (Strings.TrimSpace t) "" then defaultFileSuffix (Opts v)
          else Strings.TrimSpace t
      | Some _ => defaultFileSuffix (Opts v)
      end
  | None => defaultFileSuffix (Opts v)
  end.

(** File indirection is on for the field with nothing but defaults: no
    [file] tag and the option left on, or a [file] tag that says true. *)
Definition fileLoadingByDefault (v : variable) : bool :=
  match Lookup (Tag (fieldType v)) TagFile with
  | Some t =>
      match Strconv.ParseBool t with
      | Some b => b
      | None => false
      end
  | None => isLoadFromFile (Opts v)
  end.

(** File indirection in the words of the specification.  It applies to the
    field when the [file] tag is a true boolean or any string that is no
    boolean, and, without the tag, when the options enable it. *)
Definition fileApplies (v : variable) : bool :=
  match Lookup (Tag (fieldType v)) TagFile with
  | Some t =>
      match Strconv.ParseBool t with
      | Some b => b
      | None => true
      end
  | None => isLoadFromFile (Opts v)
  end.

(** When it applies, the variable named by the upper-cased name and suffix
    is looked up: absent, nothing is found; holding a blank path, an error;
    otherwise the contents of the file at the trimmed path, or the error of
    reading it. *)
Definition fileIndirection (env : Os.Environ) (fs : Os.Files) (v : variable)
           (name : string) : string * bool * option Error :=
  if fileApplies v then
    match Os.LookupEnv env (Strings.ToUpper (name +:+ tagSuffix v)) with
    | None => ("", false, None)
    | Some p =>
        if String.eqb (Strings.TrimSpace p) ""
        then ("", false, Some (ErrFileEnvEmpty (tagSuffix v)))
        else
          match fs !! Strings.TrimSpace p with
          | Some contents => (contents, true, None)
          | None => ("", false, Some (ErrReadFile (Strings.TrimSpace p)))
          end
    end
  else ("", false, None).

Definition consult (env : Os.Environ) (fs : Os.Files) (v : variable) (src : Source)
  : string * bool * option Error :=
  match src with
  | FromEnv name =>
      match Os.LookupEnv env name with
      | Some x => (trimmed v x, true, None)
      | None => ("", false, None)
      end
  | FromFile name =>
      match fileIndirection env fs v name with
      | (x, true, None) => (trimmed v x, true, None)
      | r => r
      end
  | FromDefault => tagDefault v
  end.

(** First match wins; an error ends the search. *)
Fixpoint firstMatch (env : Os.Environ) (fs : Os.Files) (v : variable)
         (srcs : list Source) : string * bool * option Error :=
  match srcs with
  | [] => ("", false, None)
  | src :: rest =>
      match consult env fs v src with
      | (x, b, Some e) => (x, b, Some e)
      | (x, true, None) => (x, true, None)
      | (_, false, None) => firstMatch env fs v rest
      end
  end.

(** The name of an entry [NAME=value] of the environment. *)
Definition nameOf (entry : string) : string :=
  hd "" (Strings.SplitN entry "=" 2).

Definition knownKey (keys : list string) (name : string) : bool :=
  List.existsb (String.eqb name) keys.

(** C9 as stated: the first variable whose name begins with the upper-cased
    prefix and an underscore and is no discovered key. *)
Definition statedUnknown (keys : list string) (prefix : string) (entry : string)
  : bool :=
  Strings.HasPrefix (nameOf entry) (Strings.ToUpper prefix +:+ "_")
  && negb (knownKey keys (nameOf entry)).

Definition statedCheck (keys : list string) (prefix : string) (environ : Os.Environ)
  : option Error :=
  option_map (fun entry => ErrUnknownEnv (nameOf entry))
             (List.find (statedUnknown keys prefix) environ).

(** C9 as amended: the entries are filtered by the upper-cased prefix and an
    underscore when there is a prefix, and not at all when there is none;
    the first entry that passes and whose name is no discovered key is the
    error. *)
Definition filterPrefix (prefix : string) : string :=
  if String.eqb prefix "" then "" else Strings.ToUpper prefix +:+ "_".

Definition unknownEntry (keys : list string) (prefix : string) (entry : string)
  : bool :=
  Strings.HasPrefix entry (filterPrefix prefix)
  && negb (knownKey keys (nameOf entry)).

Definition firstUnknown (keys : list string) (prefix : string) (environ : Os.Environ)
  : option Error :=
  option_map (fun entry => ErrUnknownEnv (nameOf entry))
             (List.find (unknownEntry keys prefix) environ).

Fixpoint hasByte (c : ascii) (s : string) : bool :=
  match s with
  | EmptyString => false
  | String x r => Ascii.eqb x c || hasByte c r
  end.

(** C8 in words, without regular expressions.  [span p s] is the longest
    prefix of [s] made of bytes of the class [p], and the rest. *)
Fixpoint span (p : ascii -> bool) (s : string) : string * string :=
  match s with
  | String c r =>
      if p c then let '(a, b) := span p r in (String c a, b) else (EmptyString, s)
  | EmptyString => (EmptyString, EmptyString)
  end.

(** All bytes of [s] are of the class [p]; [s] does not begin with one. *)
Fixpoint allIn (p : ascii -> bool) (s : string) : bool :=
  match s with
  | String c r => p c && allIn p r
  | EmptyString => true
  end.

Definition headNot (p : ascii -> bool) (s : string) : bool :=
  match s with
  | String c _ => negb (p c)
  | EmptyString => true
  end.

(** A non-empty string [String c s] without its last byte, and that byte. *)
Fixpoint unsnoc (c : ascii) (s : string) : string * ascii :=
  match s with
  | EmptyString => (EmptyString, c)
  | String d r => let '(i, x) := unsnoc d r in (String c i, x)
  end.

(** The words of a run [u] of capitals followed by a run [l] of other
    bytes: with two capitals or more before other bytes, the capitals but the
    last are an acronym and the last capital begins the next word. *)
Definition wordsOfRun (u l : string) : list string :=
  match l, u with
  | EmptyString, _ => [u]
  | _, String c (String d r) =>
      let '(i, x) := unsnoc c (String d r) in [i; String x l]
  | _, _ => [u +:+ l]
  end.

(** The words of an identifier, run by run; [S (length s)] steps are
    enough for [s]. *)
Fixpoint splitRuns (fuel : nat) (s : string) : list string :=
  match fuel with
  | O => []
  | S fuel' =>
      match s with
      | EmptyString => []
      | String c _ =>
          if isUpperAZ c then
            let '(u, s1) := span isUpperAZ s in
            let '(l, s2) := span notUpperAZ s1 in
            wordsOfRun u l ++ splitRuns fuel' s2
          else
            let '(l, s2) := span notUpperAZ s in
            l :: splitRuns fuel' s2
      end
  end.

(** What [splitWords] appends for one match [w0] of [gatherRegexp]. *)
Definition perMatch (w0 : string) : list string :=
  match Regexp.FindStringSubmatch acronymRegexp w0 with
  | Some [_; m1; m2] => [m1; m2]
  | _ => [w0]
  end.

(** ** Sample inputs *)

(** The no-break space U+00A0 in UTF-8. *)
Definition nbsp : string :=
  String (ascii_of_N 194) (String (ascii_of_N 160) EmptyString).


Definition stringField (name : string) (tag : StructTag) : StructField :=
  {| Name := name; Tag := tag; Anonymous := false; Exported := true |}.

(** A string variable keyed [FOO] with the given tag, under the default
    options. *)
Definition fooVar (tag : StructTag) : variable :=
  {| key := "FOO"; altKey := ""; fieldType := stringField "Foo" tag;
     field := [SField 0%nat]; typ := TString; Opts := defaultOptions |}.

(** Library parsers that reject everything, for inputs without floats and
    durations. *)
Definition noFloat : string -> Z -> string + Z := fun _ _ => inl "ParseFloat".
Definition noDuration : string -> string + Z := fun _ => inl "ParseDuration".

(** [struct { Foo string }], and a pointer to its zero value. *)
Definition fooStruct (tag : StructTag) : Ty :=
  TStruct (FCons (stringField "Foo" tag) TString FNil).

(** [struct { Name string `required:"true"`; Port int }]. *)
Definition namePortStruct : Ty :=
  TStruct (FCons (stringField "Name" [("required", "true")]) TString
          (FCons (stringField "Port" []) (TInt 64) FNil)).

Definition nameVar : variable :=
  {| key := "NAME"; altKey := "";
     fieldType := stringField "Name" [("required", "true")];
     field := [SField 0%nat]; typ := TString; Opts := defaultOptions |}.

Definition portVar : variable :=
  {| key := "PORT"; altKey := ""; fieldType := stringField "Port" [];
     field := [SField 1%nat]; typ := TInt 64; Opts := defaultOptions |}.

(** A well-formed pair token of a map from [kt] to [et]: two parts, a key
    and a value that coerce. *)
Definition goodPair (pf : string -> Z -> string + Z) (pd : string -> string + Z)
           (kt et : Ty) (tok : string) : Prop :=
  exists k0 v0,
    Strings.Split tok ":" = [k0; v0]
    /\ snd (processField pf pd k0 kt (zero kt)) = None
    /\ snd (processField pf pd v0 et (zero et)) = None.

(** [struct { Port int }]. *)
Definition portStruct : Ty :=
  TStruct (FCons (stringField "Port" []) (TInt 64) FNil).

Definition appPortVar : variable :=
  {| key := "APP_PORT"; altKey := ""; fieldType := stringField "Port" [];
     field := [SField 0%nat]; typ := TInt 64;
     Opts := apply defaultOptions [WithPrefix "APP"] |}.

(** [struct { Name string; Inner struct { Name string } }]. *)
Definition nestedStruct : Ty :=
  TStruct (FCons (stringField "Name" []) TString
          (FCons (stringField "Inner" [])
                 (TStruct (FCons (stringField "Name" []) TString FNil)) FNil)).

(** [struct { Cert string; CertFile string `split_words:"true"` }]. *)
Definition certStruct : Ty :=
  TStruct (FCons (stringField "Cert" []) TString
          (FCons (stringField "CertFile" [("split_words", "true")]) TString FNil)).

Definition certVar : variable :=
  {| key := "APP_CERT"; altKey := ""; fieldType := stringField "Cert" [];
     field := [SField 0%nat]; typ := TString;
     Opts := apply defaultOptions [WithPrefix "app"] |}.

Definition certFileVar : variable :=
  {| key := "APP_CERT_FILE"; altKey := "";
     fieldType := stringField "CertFile" [("split_words", "true")];
     field := [SField 1%nat]; typ := TString;
     Opts := apply defaultOptions [WithPrefix "app"] |}.

End Envconfig.

(** * Properties *)

Section Facts.
Context {caseTable : CaseTable}.

(** ** Value resolution *)

(** [loadFromFile] is the file indirection of the specification. *)
Lemma loadFromFile_fileIndirection (env : Os.Environ) (fs : Os.Files)
      (v : variable) (name : string) :
  loadFromFile env fs v name = fileIndirection env fs v name.
Proof.
  unfold loadFromFile, fileIndirection, fileApplies, tagSuffix, fileSuffix,
    resolveFileLoading, Os.ReadFile.
  destruct (Lookup (Tag (fieldType v)) TagFile) as [t|].
  - destruct (Strconv.ParseBool t) as [[]|]; reflexivity.
  - destruct (isLoadFromFile (Opts v)); reflexivity.
Qed.

(** C1. The value of a variable is the first match in the order: the
    environment variable named by the key, the file named through the key,
    the environment variable named by the alternate key, the file named
    through the alternate key, the default of the tag.  The file of a name
    is consulted right after the name itself, before the next name: when
    file indirection applies to the field, the variable named by that same
    name and the suffix, in upper case, is looked up and the file it names is
    read. *)
Theorem value_follows_precedence (env : Os.Environ) (fs : Os.Files) (v : variable) :
  value env fs v = firstMatch env fs v (precedence v).
Proof.
  unfold value, envNames, precedence.
  destruct (String.eqb (altKey v) "") eqn:Halt; cbn [negb app tryNames firstMatch consult];
    unfold tryEnv, tagDefault; rewrite ?loadFromFile_fileIndirection.
  - destruct (Os.LookupEnv env (key v)) as [x|]; [reflexivity |].
    destruct (fileIndirection env fs v (key v)) as [[x []] [e|]];
      try reflexivity.
    destruct (Lookup _ _); reflexivity.
  - destruct (Os.LookupEnv env (key v)) as [x|]; [reflexivity |].
    destruct (fileIndirection env fs v (key v)) as [[x []] [e|]];
      try reflexivity.
    destruct (Os.LookupEnv env (altKey v)) as [y|]; [reflexivity |].
    destruct (fileIndirection env fs v (altKey v)) as [[y []] [e|]];
      try reflexivity.
    destruct (Lookup _ _); reflexivity.
Qed.

(** ** Keys *)

Lemma toUpperByte_idem (c : ascii) : toUpperByte (toUpperByte c) = toUpperByte c.
Proof. destruct c as [[] [] [] [] [] [] [] []]; reflexivity. Qed.

Lemma toUpperByte_ASCII (c : ascii) :
  (N_of_ascii (toUpperByte c) <? Utf8.RuneSelf)%N = (N_of_ascii c <? Utf8.RuneSelf)%N.
Proof. destruct c as [[] [] [] [] [] [] [] []]; reflexivity. Qed.

(** On a string in ASCII [strings.ToUpper] maps the bytes [a] to [z]. *)
Lemma ToUpper_ASCII (s : string) :
  Strings.isASCII s = true -> Strings.ToUpper s = Strings.upperASCII s.
Proof. intros Hs. unfold Strings.ToUpper. now rewrite Hs. Qed.

Lemma isASCII_upperASCII (s : string) :
  Strings.isASCII (Strings.upperASCII s) = Strings.isASCII s.
Proof.
  induction s as [| c s IH]; [reflexivity |].
  cbn [Strings.upperASCII Strings.isASCII]. now rewrite toUpperByte_ASCII, IH.
Qed.

Lemma upperASCII_idem (s : string) :
  Strings.upperASCII (Strings.upperASCII s) = Strings.upperASCII s.
Proof.
  induction s as [| c s IH]; [reflexivity |].
  cbn [Strings.upperASCII]. now rewrite toUpperByte_idem, IH.
Qed.

Lemma upperASCII_app (a b : string) :
  Strings.upperASCII (a +:+ b) = Strings.upperASCII a +:+ Strings.upperASCII b.
Proof.
  induction a as [| c a IH]; [reflexivity |].
  change (String c a +:+ b) with (String c (a +:+ b)).
  cbn [Strings.upperASCII]. rewrite IH. reflexivity.
Qed.

Lemma isASCII_app (a b : string) :
  Strings.isASCII (a +:+ b) = Strings.isASCII a && Strings.isASCII b.
Proof.
  induction a as [| c a IH]; [reflexivity |].
  change (String c a +:+ b) with (String c (a +:+ b)).
  cbn [Strings.isASCII]. rewrite IH. now rewrite andb_assoc.
Qed.

Lemma append_assoc3 (a b c : string) : (a +:+ b) +:+ c = a +:+ (b +:+ c).
Proof.
  induction a as [| x a IH]; [reflexivity |].
  change (String x ((a +:+ b) +:+ c) = String x (a +:+ (b +:+ c))).
  now f_equal.
Qed.

Lemma eqb_empty_false (s : string) : String.eqb s "" = false <-> s <> "".
Proof. apply String.eqb_neq. Qed.

Lemma length_append (a b : string) :
  String.length (a +:+ b) = (String.length a + String.length b)%nat.
Proof. induction a as [| c a IH]; simpl; [reflexivity | now rewrite IH]. Qed.

(** A string is never its own proper extension to the left. *)
Lemma append_longer (a b : string) : a +:+ "_" +:+ b <> b.
Proof.
  intros H. apply (f_equal String.length) in H.
  rewrite !length_append in H. cbn [String.length] in H. lia.
Qed.

(** C3, amended.  With an explicit name in the tag, the alternate key is
    the trimmed name in upper case, without the prefix.  With an empty prefix
    the key is the alternate key in upper case, which is the alternate key
    itself for a name in ASCII; with a prefix the key is the upper case of
    the prefix, an underscore and the alternate key; for a prefix and a name
    in ASCII that is the upper-cased prefix, an underscore and the alternate
    key, which differs from the alternate key. *)
Theorem resolveKey_explicit_name (prefix : string) (ft : StructField) :
  String.eqb (Strings.TrimSpace (Get (Tag ft) TagEnvconfig)) "" = false ->
  snd (resolveKey prefix ft)
    = Strings.ToUpper (Strings.TrimSpace (Get (Tag ft) TagEnvconfig))
  /\ (prefix = "" ->
      fst (resolveKey prefix ft) = Strings.ToUpper (snd (resolveKey prefix ft)))
  /\ (prefix = "" ->
      Strings.isASCII (Strings.TrimSpace (Get (Tag ft) TagEnvconfig)) = true ->
      fst (resolveKey prefix ft) = snd (resolveKey prefix ft))
  /\ (prefix <> "" ->
      fst (resolveKey prefix ft)
        = Strings.ToUpper (prefix +:+ "_" +:+ snd (resolveKey prefix ft)))
  /\ (prefix <> "" ->
      Strings.isASCII prefix = true ->
      Strings.isASCII (Strings.TrimSpace (Get (Tag ft) TagEnvconfig)) = true ->
      fst (resolveKey prefix ft)
        = Strings.ToUpper prefix +:+ "_" +:+ snd (resolveKey prefix ft))
  /\ (prefix <> "" ->
      Strings.isASCII prefix = true ->
      Strings.isASCII (Strings.TrimSpace (Get (Tag ft) TagEnvconfig)) = true ->
      snd (resolveKey prefix ft) <> fst (resolveKey prefix ft)).
Proof.
  intros Hname.
  assert (Hshape : prefix <> "" ->
            Strings.isASCII prefix = true ->
            Strings.isASCII (Strings.TrimSpace (Get (Tag ft) TagEnvconfig)) = true ->
            fst (resolveKey prefix ft)
              = Strings.ToUpper prefix +:+ "_" +:+ snd (resolveKey prefix ft)).
  { unfold resolveKey. rewrite Hname. cbn [negb fst snd].
    set (name := Strings.TrimSpace (Get (Tag ft) TagEnvconfig)).
    intros Hp Hprefix Hascii. apply eqb_empty_false in Hp. rewrite Hp.
    cbn [negb].
    rewrite (ToUpper_ASCII name Hascii), (ToUpper_ASCII prefix Hprefix).
    rewrite ToUpper_ASCII.
    - now rewrite !upperASCII_app, upperASCII_idem.
    - rewrite !isASCII_app, isASCII_upperASCII, Hprefix, Hascii. reflexivity. }
  split; [| split; [| split; [| split; [| split]]]].
  - unfold resolveKey. now rewrite Hname.
  - intros ->. unfold resolveKey. now rewrite Hname.
  - intros -> Hascii. unfold resolveKey. rewrite Hname. cbn [negb fst snd String.eqb].
    rewrite (ToUpper_ASCII _ Hascii).
    rewrite ToUpper_ASCII by now rewrite isASCII_upperASCII.
    apply upperASCII_idem.
  - intros Hp. apply eqb_empty_false in Hp.
    unfold resolveKey. now rewrite Hname, Hp.
  - exact Hshape.
  - intros Hp Hprefix Hascii Heq.
    rewrite (Hshape Hp Hprefix Hascii) in Heq.
    symmetry in Heq. exact (append_longer _ _ Heq).
Qed.

(** ** The words of an identifier *)

Lemma span_spec p s a b :
  span p s = (a, b) -> s = a +:+ b /\ allIn p a = true /\ headNot p b = true.
Proof.
  revert a b. induction s as [| c r IH]; intros a b; simpl.
  - intros [= <- <-]. auto.
  - destruct (p c) eqn:Hc.
    + destruct (span p r) as [a' b'] eqn:Hs. intros [= <- <-].
      destruct (IH a' b' eq_refl) as (-> & Ha & Hb). simpl. rewrite Hc. auto.
    + intros [= <- <-]. simpl. rewrite Hc. auto.
Qed.

Lemma substring_prefix (a b : string) :
  String.substring 0 (String.length a) (a +:+ b) = a.
Proof. induction a as [| c a IH]; simpl; [now destruct b | now rewrite IH]. Qed.

Lemma consumed_app (a b : string) : Regexp.consumed (a +:+ b) b = a.
Proof.
  unfold Regexp.consumed. rewrite length_append.
  replace (String.length a + String.length b - String.length b)%nat
    with (String.length a) by lia.
  apply substring_prefix.
Qed.

Lemma append_empty_r (a : string) : a +:+ "" = a.
Proof.
  induction a as [| c a IH]; [reflexivity |].
  change (String c (a +:+ "") = String c a). now f_equal.
Qed.

Lemma consumed_all (a : string) : Regexp.consumed a "" = a.
Proof. rewrite <- (append_empty_r a) at 1. apply consumed_app. Qed.

Section Star.
Context {R : Type} (p : ascii -> bool).

Lemma star_base (b : string) (k : string -> option R) :
  headNot p b = true -> Regexp.star p b k = k b.
Proof.
  destruct b as [| c r]; simpl; [reflexivity |].
  now intros ->%negb_true_iff.
Qed.

Lemma star_longest (a b : string) (k : string -> option R) (x : R) :
  allIn p a = true -> headNot p b = true -> k b = Some x ->
  Regexp.star p (a +:+ b) k = Some x.
Proof.
  intros Ha Hb Hk. induction a as [| c a IH]; simpl in *.
  - now rewrite star_base.
  - apply andb_prop in Ha as [Hc Ha]. rewrite Hc, (IH Ha). reflexivity.
Qed.

Lemma star_all_fail (a b : string) (k : string -> option R) :
  allIn p a = true -> headNot p b = true ->
  (forall a1 a2, a = a1 +:+ a2 -> k (a2 +:+ b) = None) ->
  Regexp.star p (a +:+ b) k = None.
Proof.
  intros Ha Hb. induction a as [| c a IH]; intros Hk; simpl in *.
  - rewrite star_base by assumption. apply (Hk "" ""). reflexivity.
  - apply andb_prop in Ha as [Hc Ha]. rewrite Hc, (IH Ha).
    + apply (Hk "" (String c a)). reflexivity.
    + intros a1 a2 ->. apply (Hk (String c a1) a2). reflexivity.
Qed.

Lemma star_second (a b : string) (c : ascii) (k : string -> option R) (x : R) :
  allIn p a = true -> p c = true -> headNot p b = true ->
  k b = None -> k (String c b) = Some x ->
  Regexp.star p (a +:+ String c b) k = Some x.
Proof.
  intros Ha Hc Hb Hnone Hsome. induction a as [| d a IH]; simpl in *.
  - rewrite Hc, star_base, Hnone by assumption. exact Hsome.
  - apply andb_prop in Ha as [Hd Ha]. now rewrite Hd, (IH Ha).
Qed.
End Star.

Lemma notUpperAZ_negb (c : ascii) : notUpperAZ c = negb (isUpperAZ c).
Proof. reflexivity. Qed.

Lemma headNot_both (b : string) :
  headNot isUpperAZ b = true -> headNot notUpperAZ b = true -> b = "".
Proof.
  destruct b as [| c r]; [reflexivity |]. simpl. rewrite notUpperAZ_negb.
  destruct (isUpperAZ c); discriminate.
Qed.

Lemma gather_lower (c : ascii) (l' s2 : string) :
  notUpperAZ c = true -> allIn notUpperAZ l' = true -> headNot notUpperAZ s2 = true ->
  Regexp.matchAt gatherRegexp (String c (l' +:+ s2))
  = Some ([String c l'; String c l'], s2).
Proof.
  intros Hc Hl Hs2. unfold Regexp.matchAt, gatherRegexp.
  cbn [Regexp.run]. rewrite Hc.
  erewrite star_longest; [| exact Hl | exact Hs2 | reflexivity].
  cbn [Regexp.ngroups Nat.max seq map Regexp.group Nat.eqb].
  change (String c (l' +:+ s2)) with (String c l' +:+ s2).
  now rewrite consumed_app.
Qed.

(** An upper-case run followed by a non-empty run of other bytes. *)
Lemma gather_upper_lower (c d : ascii) (u' l' s2 : string) :
  isUpperAZ c = true -> allIn isUpperAZ u' = true ->
  notUpperAZ d = true -> allIn notUpperAZ l' = true -> headNot notUpperAZ s2 = true ->
  Regexp.matchAt gatherRegexp (String c (u' +:+ String d (l' +:+ s2)))
  = Some ([String c u' +:+ String d l'; String c u' +:+ String d l'], s2).
Proof.
  intros Hc Hu Hd Hl Hs2. unfold Regexp.matchAt, gatherRegexp.
  cbn [Regexp.run]. rewrite notUpperAZ_negb, Hc. cbn [negb].
  erewrite star_longest;
    [| exact Hu | simpl; rewrite notUpperAZ_negb in Hd; exact Hd |].
  2:{ rewrite Hd. erewrite star_longest; [| exact Hl | exact Hs2 | reflexivity].
      reflexivity. }
  cbn [Regexp.ngroups Nat.max seq map Regexp.group Nat.eqb].
  replace (String c (u' +:+ String d (l' +:+ s2)))
    with ((String c u' +:+ String d l') +:+ s2).
  - now rewrite consumed_app.
  - change ((String c u' +:+ String d l') +:+ s2)
      with (String c ((u' +:+ String d l') +:+ s2)).
    f_equal. rewrite append_assoc3. reflexivity.
Qed.

(** An upper-case run at the end of the string. *)
Lemma gather_upper_end (c : ascii) (u' : string) :
  isUpperAZ c = true -> allIn isUpperAZ u' = true ->
  Regexp.matchAt gatherRegexp (String c u')
  = Some ([String c u'; String c u'], "").
Proof.
  intros Hc Hu. unfold Regexp.matchAt, gatherRegexp.
  cbn [Regexp.run]. rewrite notUpperAZ_negb, Hc. cbn [negb].
  rewrite <- (append_empty_r u').
  rewrite star_all_fail; [| exact Hu | reflexivity |].
  2:{ intros a1 a2 ->. 
      assert (Ha2 : allIn isUpperAZ a2 = true).
      { clear -Hu. induction a1 as [| x a1 IH]; simpl in Hu; [exact Hu |].
        apply andb_prop in Hu as [_ Hu]. now apply IH. }
      destruct a2 as [| x a2]; [reflexivity |].
      simpl in Ha2. apply andb_prop in Ha2 as [Hx _].
      change (String x a2 +:+ "") with (String x (a2 +:+ "")).
      cbv beta iota. rewrite notUpperAZ_negb, Hx. reflexivity. }
  erewrite star_longest; [| exact Hu | reflexivity | reflexivity].
  cbn [Regexp.ngroups Nat.max seq map Regexp.group Nat.eqb].
  now rewrite consumed_all.
Qed.

Lemma acronym_at_lower (c : ascii) (r : string) :
  notUpperAZ c = true -> Regexp.matchAt acronymRegexp (String c r) = None.
Proof.
  intros Hc. unfold Regexp.matchAt, acronymRegexp. cbn [Regexp.run].
  rewrite notUpperAZ_negb in Hc. apply negb_true_iff in Hc. now rewrite Hc.
Qed.

Lemma acronym_none_lower (l : string) :
  allIn notUpperAZ l = true -> Regexp.FindStringSubmatch acronymRegexp l = None.
Proof.
  induction l as [| c l IH]; [reflexivity |].
  simpl allIn. intros [Hc Hl]%andb_prop.
  cbn [Regexp.FindStringSubmatch]. rewrite (acronym_at_lower c l Hc).
  now apply IH.
Qed.

Lemma allIn_app_r (p : ascii -> bool) (a1 a2 : string) :
  allIn p (a1 +:+ a2) = true -> allIn p a2 = true.
Proof.
  induction a1 as [| x a1 IH]; [auto |].
  simpl. intros [_ H]%andb_prop. now apply IH.
Qed.

Lemma acronym_at_upper (c : ascii) (u : string) :
  isUpperAZ c = true -> allIn isUpperAZ u = true ->
  Regexp.matchAt acronymRegexp (String c u) = None.
Proof.
  intros Hc Hu. unfold Regexp.matchAt, acronymRegexp. cbn [Regexp.run].
  rewrite Hc. rewrite <- (append_empty_r u).
  apply star_all_fail; [exact Hu | reflexivity |].
  intros a1 a2 ->. apply allIn_app_r in Hu.
  destruct a2 as [| x [| y a2]]; [reflexivity | |].
  - simpl in Hu. apply andb_prop in Hu as [Hx _].
    change (String x "" +:+ "") with (String x "").
    cbv beta iota. now rewrite Hx.
  - simpl in Hu. apply andb_prop in Hu as [Hx [Hy _]%andb_prop].
    change (String x (String y a2) +:+ "") with (String x (String y (a2 +:+ ""))).
    cbv beta iota. rewrite Hx, notUpperAZ_negb, Hy. reflexivity.
Qed.

Lemma acronym_none_upper (u : string) :
  allIn isUpperAZ u = true -> Regexp.FindStringSubmatch acronymRegexp u = None.
Proof.
  induction u as [| c u IH]; [reflexivity |].
  simpl allIn. intros [Hc Hu]%andb_prop.
  cbn [Regexp.FindStringSubmatch]. rewrite (acronym_at_upper c u Hc Hu).
  now apply IH.
Qed.

Lemma acronym_single (c d : ascii) (l' : string) :
  isUpperAZ c = true -> notUpperAZ d = true -> allIn notUpperAZ l' = true ->
  Regexp.FindStringSubmatch acronymRegexp (String c (String d l')) = None.
Proof.
  intros Hc Hd Hl.
  cbn [Regexp.FindStringSubmatch].
  assert (Hat : Regexp.matchAt acronymRegexp (String c (String d l')) = None).
  { unfold Regexp.matchAt, acronymRegexp. cbn [Regexp.run]. rewrite Hc.
    rewrite star_base by (simpl; rewrite notUpperAZ_negb in Hd; exact Hd).
    rewrite notUpperAZ_negb in Hd. apply negb_true_iff in Hd. now rewrite Hd. }
  rewrite Hat, (acronym_at_lower d l' Hd).
  now apply acronym_none_lower.
Qed.

Lemma acronym_split (c x d : ascii) (i' l' : string) :
  isUpperAZ c = true -> allIn isUpperAZ i' = true -> isUpperAZ x = true ->
  notUpperAZ d = true -> allIn notUpperAZ l' = true ->
  Regexp.FindStringSubmatch acronymRegexp
    (String c (i' +:+ String x (String d l')))
  = Some [String c (i' +:+ String x (String d l')); String c i';
          String x (String d l')].
Proof.
  intros Hc Hi Hx Hd Hl.
  assert (Hat : Regexp.matchAt acronymRegexp
                  (String c (i' +:+ String x (String d l')))
                = Some ([String c (i' +:+ String x (String d l')); String c i';
                         String x (String d l')], "")).
  { unfold Regexp.matchAt, acronymRegexp. cbn [Regexp.run]. rewrite Hc.
    erewrite star_second; [| exact Hi | exact Hx | | |].
    - reflexivity.
    - simpl. rewrite notUpperAZ_negb in Hd. exact Hd.
    - cbv beta iota. rewrite notUpperAZ_negb in Hd. apply negb_true_iff in Hd.
      now rewrite Hd.
    - cbv beta iota. rewrite Hx, Hd.
      rewrite <- (append_empty_r l') at 1.
      erewrite star_longest; [| exact Hl | reflexivity | reflexivity].
      cbn [Regexp.ngroups Nat.max seq map Regexp.group Nat.eqb].
      rewrite !consumed_all.
      change (String c (i' +:+ String x (String d l')))
        with (String c i' +:+ String x (String d l')).
      now rewrite consumed_app. }
  destruct i'; cbn [Regexp.FindStringSubmatch String.append] in *; now rewrite Hat.
Qed.

Lemma fold_left_flat_map {A B : Type} (f : list B -> A -> list B)
      (g : A -> list B) :
  (forall out w, f out w = out ++ g w) ->
  forall l acc, fold_left f l acc = acc ++ flat_map g l.
Proof.
  intros Hf l. induction l as [| w l IH]; intros acc; simpl.
  - now rewrite app_nil_r.
  - now rewrite IH, Hf, app_assoc.
Qed.

Lemma splitWords_flat_map (s : string) :
  splitWords s
  = flat_map (fun words => perMatch (hd "" words))
             (Regexp.FindAllStringSubmatch gatherRegexp s).
Proof.
  unfold splitWords.
  rewrite (fold_left_flat_map _ (fun words => perMatch (hd "" words)));
    [reflexivity |].
  intros out words. unfold perMatch.
  destruct (Regexp.FindStringSubmatch acronymRegexp (hd "" words))
    as [[| a [| b [| c [| d m]]]] |]; reflexivity.
Qed.

Lemma unsnoc_spec (p : ascii -> bool) (c : ascii) (s : string) (i : string)
      (x : ascii) :
  unsnoc c s = (i, x) ->
  String c s = i +:+ String x ""
  /\ (allIn p (String c s) = true -> allIn p i = true /\ p x = true).
Proof.
  revert c i x. induction s as [| d r IH]; intros c i x; simpl.
  - intros [= <- <-]. split; [reflexivity |].
    intros [Hc _]%andb_prop. auto.
  - destruct (unsnoc d r) as [i0 x0] eqn:Hu. intros [= <- <-].
    destruct (IH d i0 x0 Hu) as [Heq Hall]. split.
    + change (String c i0 +:+ String x0 "") with (String c (i0 +:+ String x0 "")).
      now rewrite <- Heq.
    + intros [Hc Hrest]%andb_prop. destruct (Hall Hrest) as [Hi Hx].
      simpl. now rewrite Hc, Hi.
Qed.

Lemma perMatch_run (c : ascii) (u' l : string) :
  isUpperAZ c = true -> allIn isUpperAZ u' = true -> allIn notUpperAZ l = true ->
  perMatch (String c u' +:+ l) = wordsOfRun (String c u') l.
Proof.
  intros Hc Hu Hl. unfold perMatch, wordsOfRun.
  destruct l as [| d l'].
  - rewrite append_empty_r, acronym_none_upper; [reflexivity |].
    simpl. now rewrite Hc, Hu.
  - simpl in Hl. apply andb_prop in Hl as [Hd Hl].
    destruct u' as [| e r].
    + change (String c "" +:+ String d l') with (String c (String d l')).
      now rewrite acronym_single.
    + destruct (unsnoc c (String e r)) as [i x] eqn:Hun.
      destruct (unsnoc_spec isUpperAZ c (String e r) i x Hun) as [Heq Hall].
      destruct Hall as [Hi Hx]; [simpl; simpl in Hu; now rewrite Hc, Hu |].
      destruct i as [| c0 i'].
      { simpl in Hun. destruct (unsnoc e r); discriminate. }
      assert (c0 = c) as ->.
      { simpl in Hun. destruct (unsnoc e r). congruence. }
      rewrite Heq, append_assoc3.
      change (String c i' +:+ (String x "" +:+ String d l'))
        with (String c (i' +:+ String x (String d l'))).
      simpl in Hi. apply andb_prop in Hi as [_ Hi].
      now rewrite acronym_split.
Qed.

Lemma findAll_runs (fuel : nat) (s : string) :
  flat_map (fun words => perMatch (hd "" words))
           (Regexp.findAll fuel gatherRegexp s)
  = splitRuns fuel s.
Proof.
  revert s. induction fuel as [| fuel IH]; intros s; [reflexivity |].
  destruct s as [| c r]; [reflexivity |].
  cbn [splitRuns Regexp.findAll].
  destruct (isUpperAZ c) eqn:Hc.
  - destruct (span isUpperAZ (String c r)) as [u s1] eqn:Hu.
    destruct (span notUpperAZ s1) as [l s2] eqn:Hl.
    destruct (span_spec _ _ _ _ Hl) as (Hs1eq & Hall_l & Hs2).
    simpl in Hu. rewrite Hc in Hu.
    destruct (span isUpperAZ r) as [u' s1'] eqn:Hr.
    injection Hu as <- <-.
    destruct (span_spec _ _ _ _ Hr) as (Hreq & Hall_u & Hs1).
    subst r s1'. clear Hr Hl.
    destruct l as [| d l'].
    + cbn [String.append] in Hs1.
      rewrite (headNot_both s2 Hs1 Hs2) in *.
      rewrite append_empty_r, (gather_upper_end c u' Hc Hall_u).
      cbn [String.length Nat.ltb Nat.leb flat_map hd].
      unfold perMatch at 1.
      rewrite acronym_none_upper by (simpl; now rewrite Hc, Hall_u).
      cbn [wordsOfRun app]. f_equal. apply IH.
    + simpl in Hall_l. apply andb_prop in Hall_l as [Hd Hall_l].
      change (String d l' +:+ s2) with (String d (l' +:+ s2)).
      rewrite (gather_upper_lower c d u' l' s2 Hc Hall_u Hd Hall_l Hs2).
      assert (Hlen : (String.length s2
                      <? String.length (String c (u' +:+ String d (l' +:+ s2))))%nat
                     = true).
      { apply Nat.ltb_lt. simpl. rewrite length_append. simpl.
        rewrite length_append. lia. }
      rewrite Hlen. cbn [flat_map hd].
      rewrite perMatch_run; [| exact Hc | exact Hall_u | simpl; now rewrite Hd, Hall_l].
      f_equal. apply IH.
  - destruct (span notUpperAZ (String c r)) as [l s2] eqn:Hl.
    simpl in Hl. rewrite notUpperAZ_negb, Hc in Hl. cbn [negb] in Hl.
    destruct (span notUpperAZ r) as [l' s2'] eqn:Hr.
    injection Hl as <- <-.
    destruct (span_spec _ _ _ _ Hr) as (Hreq & Hall_l & Hs2).
    subst r. clear Hr.
    assert (Hnc : notUpperAZ c = true) by (rewrite notUpperAZ_negb, Hc; reflexivity).
    rewrite (gather_lower c l' s2' Hnc Hall_l Hs2).
    assert (Hlen : (String.length s2' <? String.length (String c (l' +:+ s2')))%nat
                   = true).
    { apply Nat.ltb_lt. simpl. rewrite length_append. lia. }
    rewrite Hlen. cbn [flat_map hd].
    unfold perMatch at 1. rewrite acronym_none_lower by (simpl; now rewrite Hnc, Hall_l).
    cbn [app]. f_equal. apply IH.
Qed.

(** [splitWords], defined with two regular expressions, cuts an identifier
    at the boundaries of its runs of capitals. *)
Lemma splitWords_runs (s : string) :
  splitWords s = splitRuns (S (String.length s)) s.
Proof.
  rewrite splitWords_flat_map. apply findAll_runs.
Qed.

(** C8. Without a name in the tag and with [split_words], the key is the
    words of the identifier joined by underscores, behind the prefix if there
    is one, in upper case.  The words are cut at the boundaries of the runs
    of capitals: a run of other bytes at the start is a word, a run of
    capitals at the end is a word, and a run of capitals followed by other
    bytes is one word when it has a single capital, and otherwise an acronym
    made of the capitals but the last, and a word that begins with the last
    capital.  [APIKey] splits into [API] and [Key] and gives [API_KEY],
    [DBHost] into [DB] and [Host] and gives [DB_HOST]. *)
Theorem split_words_key (prefix : string) (ft : StructField) :
  String.eqb (Strings.TrimSpace (Get (Tag ft) TagEnvconfig)) "" = true ->
  isTrue (Get (Tag ft) TagSplitWords) = true ->
  fst (resolveKey prefix ft)
    = Strings.ToUpper
        ((if String.eqb prefix "" then "" else prefix +:+ "_")
         +:+ Strings.Join (splitWords (Name ft)) "_")
  /\ splitWords (Name ft) = splitRuns (S (String.length (Name ft))) (Name ft)
  /\ splitWords "APIKey" = ["API"; "Key"]
  /\ splitWords "DBHost" = ["DB"; "Host"]
  /\ (prefix = "" -> Name ft = "APIKey" -> fst (resolveKey prefix ft) = "API_KEY")
  /\ (prefix = "" -> Name ft = "DBHost" -> fst (resolveKey prefix ft) = "DB_HOST").
Proof.
  intros Hname Hsplit.
  assert (Hkey : fst (resolveKey prefix ft)
                 = Strings.ToUpper
                     ((if String.eqb prefix "" then "" else prefix +:+ "_")
                      +:+ Strings.Join (splitWords (Name ft)) "_")).
  { unfold resolveKey. rewrite Hname, Hsplit. simpl.
    destruct (String.eqb prefix ""); simpl; [reflexivity |].
    now rewrite append_assoc3. }
  split; [exact Hkey |].
  split; [apply splitWords_runs |].
  split; [reflexivity |]. split; [reflexivity |].
  split; intros -> Hn; rewrite Hkey, Hn; reflexivity.
Qed.

(** ** File indirection *)

Lemma loadFromFile_eq (env : Os.Environ) (fs : Os.Files) (v : variable)
      (name : string) :
  loadFromFile env fs v name =
    if negb (snd (resolveFileLoading v)) then ("", false, None)
    else
      match Os.LookupEnv env (fileEnvName v name) with
      | Some p =>
          if String.eqb (Strings.TrimSpace p) ""
          then ("", false, Some (ErrFileEnvEmpty (fileSuffix v (fst (resolveFileLoading v)))))
          else
            match Os.ReadFile fs (Strings.TrimSpace p) with
            | None => ("", false, Some (ErrReadFile (Strings.TrimSpace p)))
            | Some bytes => (bytes, true, None)
            end
      | None => ("", false, None)
      end.
Proof.
  unfold loadFromFile, fileEnvName.
  destruct (resolveFileLoading v) as [t needLoad]; reflexivity.
Qed.

Lemma fileEnvName_tagSuffix (v : variable) (name : string) :
  fileEnvName v name = Strings.ToUpper (name +:+ tagSuffix v).
Proof.
  unfold fileEnvName, fileSuffix, tagSuffix, resolveFileLoading.
  destruct (Lookup (Tag (fieldType v)) TagFile) as [t|].
  - destruct (Strconv.ParseBool t) as [[]|]; reflexivity.
  - destruct (isLoadFromFile (Opts v)); reflexivity.
Qed.

Lemma fileLoadingByDefault_resolve (v : variable) :
  fileLoadingByDefault v = true -> resolveFileLoading v = ("", true).
Proof.
  unfold fileLoadingByDefault, resolveFileLoading.
  destruct (Lookup (Tag (fieldType v)) TagFile) as [t|].
  - destruct (Strconv.ParseBool t) as [[]|]; congruence.
  - destruct (isLoadFromFile (Opts v)); congruence.
Qed.

(** C4, amended.  When file indirection applies, the variable that holds
    the path is named by the upper-cased name followed by the suffix, the
    suffix being the trimmed string of the [file] tag when that is neither a
    boolean nor blank, and the default suffix of the options otherwise,
    [_FILE] unless changed.  If that variable is absent nothing is loaded; if
    it holds a path, the contents of the file are the value.  So a field
    keyed [FOO], file indirection left at its defaults, no [FOO] in the
    environment and [FOO_FILE] naming a file that contains [secret], has the
    value [secret]. *)
Theorem file_indirection_name (env : Os.Environ) (fs : Os.Files) (v : variable) :
  (forall name, fileEnvName v name = Strings.ToUpper (name +:+ tagSuffix v))
  /\ defaultFileSuffix defaultOptions = "_FILE"
  /\ (forall name,
        snd (resolveFileLoading v) = true ->
        Os.LookupEnv env (Strings.ToUpper (name +:+ tagSuffix v)) = None ->
        loadFromFile env fs v name = ("", false, None))
  /\ (forall name p contents,
        snd (resolveFileLoading v) = true ->
        Os.LookupEnv env (Strings.ToUpper (name +:+ tagSuffix v)) = Some p ->
        String.eqb (Strings.TrimSpace p) "" = false ->
        Os.ReadFile fs (Strings.TrimSpace p) = Some contents ->
        loadFromFile env fs v name = (contents, true, None))
  /\ (forall p,
        key v = "FOO" ->
        fileLoadingByDefault v = true ->
        defaultFileSuffix (Opts v) = "_FILE" ->
        Os.LookupEnv env "FOO" = None ->
        Os.LookupEnv env "FOO_FILE" = Some p ->
        String.eqb (Strings.TrimSpace p) "" = false ->
        Os.ReadFile fs (Strings.TrimSpace p) = Some "secret" ->
        value env fs v = ("secret", true, None)).
Proof.
  split; [intros name; apply fileEnvName_tagSuffix |].
  split; [reflexivity |].
  split; [| split].
  - intros name Hneed Habsent.
    rewrite loadFromFile_eq, Hneed, fileEnvName_tagSuffix, Habsent. reflexivity.
  - intros name p contents Hneed Hset Hpath Hread.
    rewrite loadFromFile_eq, Hneed, fileEnvName_tagSuffix, Hset, Hpath, Hread.
    reflexivity.
  - intros p Hkey Hdefault Hsuffix Hfoo Hfile Hpath Hread.
    assert (Hload : loadFromFile env fs v "FOO" = ("secret", true, None)).
    { rewrite loadFromFile_eq. unfold fileEnvName, fileSuffix.
      rewrite (fileLoadingByDefault_resolve v Hdefault).
      cbn [negb snd fst].
      change (String.eqb (Strings.TrimSpace "") "") with true.
      cbn iota. rewrite Hsuffix.
      change (Strings.ToUpper ("FOO" +:+ "_FILE")) with "FOO_FILE".
      rewrite Hfile, Hpath, Hread. reflexivity. }
    assert (Htry : forall rest, tryNames env fs v ("FOO" :: rest)
                                = ("secret", true, None)).
    { intros rest. simpl. unfold tryEnv. now rewrite Hfoo, Hload. }
    unfold value, envNames. rewrite Hkey.
    destruct (negb (String.eqb (altKey v) "")); rewrite Htry;
      destruct (trimSpaces (Opts v)); reflexivity.
Qed.

(** ** The loop of [Process] *)

Section ProcessFacts.
Context (pf : string -> Z -> string + Z) (pd : string -> string + Z).
Context (env : Os.Environ) (fs : Os.Files).

Lemma processVars_app (pre rest : list variable) (root : Val) :
  processVars pf pd env fs (pre ++ rest) root =
    match processVars pf pd env fs pre root with
    | (root1, None) => processVars pf pd env fs rest root1
    | (root1, Some e) => (root1, Some e)
    end.
Proof.
  revert root. induction pre as [| v pre IH]; intros root; [reflexivity |].
  simpl.
  destruct (value env fs v) as [[x []] [e|]]; try reflexivity.
  - destruct (processField pf pd x (typ v) (getAt root (field v))) as [new [e|]];
      [reflexivity | apply IH].
  - destruct (isRequired v); [reflexivity | apply IH].
Qed.

Lemma tryNames_skip (v : variable) (before rest : list string) :
  (forall n, In n before -> tryEnv env fs v n = ("", false, None)) ->
  tryNames env fs v (before ++ rest) = tryNames env fs v rest.
Proof.
  induction before as [| n before IH]; intros Hskip; [reflexivity |].
  simpl. rewrite (Hskip n (or_introl eq_refl)).
  apply IH. intros m Hm. apply Hskip. now right.
Qed.

Lemma processVars_value_error (v : variable) (rest : list variable)
      (root : Val) (e : Error) :
  snd (value env fs v) = Some e ->
  processVars pf pd env fs (v :: rest) root = (root, Some e).
Proof.
  simpl. destruct (value env fs v) as [[x b] [e'|]]; simpl; [| discriminate].
  intros [= ->]. now destruct b.
Qed.

End ProcessFacts.

(** C5. Loading from a file fails exactly when file indirection applies to
    the field and the variable that holds the path is set but blank, or is
    set and the file cannot be read.  When that variable is absent, nothing
    is loaded and there is no error.  An error met while the names of a
    variable are tried is the error of [value], and [Process] returns it as
    soon as it reaches the variable, leaving the later variables alone. *)
Theorem file_indirection_errors (pf : string -> Z -> string + Z)
        (pd : string -> string + Z) (env : Os.Environ) (fs : Os.Files)
        (v : variable) (name : string) :
  ((exists e, snd (loadFromFile env fs v name) = Some e) <->
     snd (resolveFileLoading v) = true /\
     exists p, Os.LookupEnv env (fileEnvName v name) = Some p /\
       (Strings.TrimSpace p = "" \/ Os.ReadFile fs (Strings.TrimSpace p) = None))
  /\ (Os.LookupEnv env (fileEnvName v name) = None ->
      loadFromFile env fs v name = ("", false, None))
  /\ (forall e before after,
        envNames v = before ++ name :: after ->
        (forall n, In n before -> tryEnv env fs v n = ("", false, None)) ->
        Os.LookupEnv env name = None ->
        snd (loadFromFile env fs v name) = Some e ->
        snd (value env fs v) = Some e
        /\ forall specTy specVal optsValues pre post root root1,
             gatherInfo specTy specVal (apply defaultOptions optsValues)
               = inr (pre ++ v :: post, root) ->
             processVars pf pd env fs pre root = (root1, None) ->
             Process pf pd env fs specTy specVal optsValues = (VPtr root1, Some e)).
Proof.
  split; [| split].
  - rewrite loadFromFile_eq.
    destruct (snd (resolveFileLoading v)); simpl.
    + destruct (Os.LookupEnv env (fileEnvName v name)) as [p|].
      * destruct (String.eqb_spec (Strings.TrimSpace p) "") as [Hblank | Hpath].
        -- simpl. split; [| eauto]. intros _. split; [reflexivity |].
           exists p. auto.
        -- destruct (Os.ReadFile fs (Strings.TrimSpace p)) as [c|] eqn:Hread; simpl.
           ++ split; [intros [e He]; discriminate |].
              intros [_ [q [[= <-] [Hq | Hq]]]]; [contradiction | congruence].
           ++ split; [| eauto]. intros _. split; [reflexivity |].
              exists p. auto.
      * simpl. split; [intros [e He]; discriminate |].
        intros [_ [q [Hq _]]]. discriminate.
    + split; [intros [e He]; discriminate | intros [Hf _]; discriminate].
  - intros Habsent. rewrite loadFromFile_eq, Habsent.
    now destruct (negb _).
  - intros e before after Hnames Hskip Henv Hload.
    assert (Hvalue : snd (value env fs v) = Some e).
    { unfold value. rewrite Hnames, (tryNames_skip env fs v before _ Hskip).
      simpl. unfold tryEnv. rewrite Henv.
      destruct (loadFromFile env fs v name) as [[x []] [e'|]]; simpl in *;
        try discriminate; exact Hload. }
    split; [exact Hvalue |].
    intros specTy specVal optsValues pre post root root1 Hgather Hpre.
    unfold Process. rewrite Hgather, processVars_app, Hpre.
    now rewrite (processVars_value_error pf pd env fs v post root1 e Hvalue).
Qed.

(** C6. Let a variable be required and have no value: no environment
    variable for its key or alternate key, no file for either, no default.
    Then [Process] cannot succeed on a list that holds it; and when the
    variables before it are processed without error, [Process] returns the
    error that names its key, with the struct as those variables left it,
    whatever variables come after. *)
Theorem required_key_missing (pf : string -> Z -> string + Z)
        (pd : string -> string + Z) (env : Os.Environ) (fs : Os.Files)
        (v : variable) :
  isRequired v = true ->
  Os.LookupEnv env (key v) = None ->
  (altKey v <> "" -> Os.LookupEnv env (altKey v) = None) ->
  (forall name, In name (envNames v) ->
     loadFromFile env fs v name = ("", false, None)) ->
  Lookup (Tag (fieldType v)) TagDefault = None ->
  value env fs v = ("", false, None)
  /\ (forall vars root, In v vars ->
        exists e, snd (processVars pf pd env fs vars root) = Some e)
  /\ (forall pre post root root1,
        processVars pf pd env fs pre root = (root1, None) ->
        processVars pf pd env fs (pre ++ v :: post) root
          = (root1, Some (ErrRequiredKey (key v)))
        /\ forall specTy specVal optsValues,
             gatherInfo specTy specVal (apply defaultOptions optsValues)
               = inr (pre ++ v :: post, root) ->
             Process pf pd env fs specTy specVal optsValues
               = (VPtr root1, Some (ErrRequiredKey (key v)))).
Proof.
  intros Hreq Hkey Halt Hfile Hdefault.
  assert (Hvalue : value env fs v = ("", false, None)).
  { unfold value, envNames in *.
    destruct (String.eqb_spec (altKey v) "") as [Hno | Hyes]; simpl in *.
    - unfold tryEnv. rewrite Hkey, (Hfile (key v)) by auto.
      now rewrite Hdefault.
    - unfold tryEnv. rewrite Hkey, (Hfile (key v)) by auto.
      rewrite (Halt Hyes), (Hfile (altKey v)) by auto.
      now rewrite Hdefault. }
  assert (Hstep : forall post root,
             processVars pf pd env fs (v :: post) root
             = (root, Some (ErrRequiredKey (key v)))).
  { intros post root. simpl. now rewrite Hvalue, Hreq. }
  split; [exact Hvalue |]. split.
  - intros vars. induction vars as [| w vars IH]; intros root Hin; [destruct Hin |].
    destruct Hin as [-> | Hin].
    + rewrite Hstep. eauto.
    + simpl.
      destruct (value env fs w) as [[x []] [e|]]; simpl; eauto.
      * destruct (processField pf pd x (typ w) (getAt root (field w))) as [new [e|]];
          simpl; eauto.
      * destruct (isRequired w); simpl; eauto.
  - intros pre post root root1 Hpre.
    assert (Hvars : processVars pf pd env fs (pre ++ v :: post) root
                    = (root1, Some (ErrRequiredKey (key v)))).
    { now rewrite processVars_app, Hpre, Hstep. }
    split; [exact Hvars |].
    intros specTy specVal optsValues Hgather.
    unfold Process. now rewrite Hgather, Hvars.
Qed.

(** ** Coercion of maps *)

Section MapFacts.
Context (pf : string -> Z -> string + Z) (pd : string -> string + Z).
Context (kt et : Ty).

Lemma processField_map (value : string) (field : Val) :
  processField pf pd value (TMap kt et) field =
    if negb (String.eqb (Strings.TrimSpace value) "") then
      match entries (fun s => processField pf pd s kt (zero kt))
            (fun s => processField pf pd s et (zero et)) [] (Strings.Split value ",") with
      | inl err => (field, Some err)
      | inr mp => (VMap mp, None)
      end
    else (VMap [], None).
Proof. reflexivity. Qed.

Lemma entries_bad_token (tok : string) (post : list string)
      (mp : list (Val * Val)) :
  List.length (Strings.Split tok ":") <> 2%nat ->
  entries (fun s => processField pf pd s kt (zero kt))
            (fun s => processField pf pd s et (zero et)) mp (tok :: post) = inl (ErrInvalidMapItem tok).
Proof.
  intros Hlen. simpl.
  destruct (Strings.Split tok ":") as [| a [| b [| c l]]]; simpl in *;
    try reflexivity.
  congruence.
Qed.

Lemma entries_good_prefix (pre : list string) (tok : string)
      (post : list string) (mp : list (Val * Val)) :
  Forall (goodPair pf pd kt et) pre ->
  List.length (Strings.Split tok ":") <> 2%nat ->
  entries (fun s => processField pf pd s kt (zero kt))
            (fun s => processField pf pd s et (zero et)) mp (pre ++ tok :: post) = inl (ErrInvalidMapItem tok).
Proof.
  intros Hgood Hlen. revert mp.
  induction Hgood as [| t pre Ht _ IH]; intros mp.
  - now apply entries_bad_token.
  - destruct Ht as (k0 & v0 & Hsplit & Hk & Hv).
    simpl. rewrite Hsplit.
    destruct (processField pf pd k0 kt (zero kt)) as [k [e|]]; [discriminate |].
    destruct (processField pf pd v0 et (zero et)) as [x [e|]]; [discriminate |].
    apply IH.
Qed.

Lemma entries_fails (pre : list string) (tok : string) (post : list string)
      (mp : list (Val * Val)) :
  List.length (Strings.Split tok ":") <> 2%nat ->
  exists e, entries (fun s => processField pf pd s kt (zero kt))
            (fun s => processField pf pd s et (zero et)) mp (pre ++ tok :: post) = inl e.
Proof.
  intros Hlen. revert mp.
  induction pre as [| t pre IH]; intros mp.
  - exists (ErrInvalidMapItem tok). now apply entries_bad_token.
  - simpl.
    destruct (Strings.Split t ":") as [| a [| b [| c l]]]; eauto.
    destruct (processField pf pd a kt (zero kt)) as [k [e|]]; eauto.
    destruct (processField pf pd b et (zero et)) as [x [e|]]; eauto.
Qed.

End MapFacts.

(** C7. For a field of a map type: a blank string gives the empty map, not
    nil.  Any other string is split at the commas and every token at the
    colons; with a token that has not exactly two parts the coercion fails
    and leaves the field alone, and the error is "invalid map item" for that
    token when the tokens before it are well formed.  [a:1,b:2] for a map
    from string to int gives exactly the entries [a = 1] and [b = 2];
    [a:1:2] and [a] are invalid map items. *)
Theorem map_coercion (pf : string -> Z -> string + Z) (pd : string -> string + Z)
        (kt et : Ty) (value : string) (field : Val) :
  (String.eqb (Strings.TrimSpace value) "" = true ->
     processField pf pd value (TMap kt et) field = (VMap [], None))
  /\ (String.eqb (Strings.TrimSpace value) "" = false ->
      forall pre tok post,
        Strings.Split value "," = pre ++ tok :: post ->
        List.length (Strings.Split tok ":") <> 2%nat ->
        (exists e, processField pf pd value (TMap kt et) field = (field, Some e))
        /\ (Forall (goodPair pf pd kt et) pre ->
            processField pf pd value (TMap kt et) field
              = (field, Some (ErrInvalidMapItem tok))))
  /\ processField pf pd "a:1,b:2" (TMap TString (TInt 64)) field
     = (VMap [(VString "a", VInt 1); (VString "b", VInt 2)], None)
  /\ processField pf pd "a:1:2" (TMap TString (TInt 64)) field
     = (field, Some (ErrInvalidMapItem "a:1:2"))
  /\ processField pf pd "a" (TMap TString (TInt 64)) field
     = (field, Some (ErrInvalidMapItem "a")).
Proof.
  split; [| split].
  - intros Hblank. now rewrite processField_map, Hblank.
  - intros Hvalue pre tok post Hsplit Hlen.
    rewrite processField_map, Hvalue, Hsplit. simpl. split.
    + destruct (entries_fails pf pd kt et pre tok post [] Hlen) as [e He].
      rewrite He. eauto.
    + intros Hgood.
      now rewrite (entries_good_prefix pf pd kt et pre tok post [] Hgood Hlen).
  - repeat split; reflexivity.
Qed.

(** ** The options of a nested walk *)

(** What [options.copy] keeps: the three fields its literal names.  The
    prefix becomes the key of the field, unless the field is embedded. *)
Lemma innerOptions_frame (opts : options) (ft : StructField) (k : string) :
  isLoadFromFile (innerOptions opts ft k) = isLoadFromFile opts
  /\ defaultFileSuffix (innerOptions opts ft k) = defaultFileSuffix opts
  /\ prefix (innerOptions opts ft k) = (if Anonymous ft then prefix opts else k).
Proof.
  unfold innerOptions. destruct (Anonymous ft); simpl; auto.
Qed.

(** C2 on the code.  The options of a nested walk never trim, whatever the
    options of the parent say: under the default options, which trim, the
    variable of [Inner.Name] carries options that do not, for a named and
    for an embedded field alike, and [Process] trims the value of [Name] but
    not that of [Inner.Name]. *)
Theorem nested_options_lose_trimSpaces :
  trimSpaces defaultOptions = true
  /\ (forall opts ft k, trimSpaces (innerOptions opts ft k) = false)
  /\ map (fun v => (key v, trimSpaces (Opts v)))
         (match gatherInfo (TPtr nestedStruct) (VPtr (zero nestedStruct))
                  (apply defaultOptions []) with
          | inr (vars, _) => vars
          | inl _ => []
          end)
     = [("NAME", true); ("INNER_NAME", false)]
  /\ Process noFloat noDuration ["NAME=  bob  "; "INNER_NAME=  bob  "] ∅
       (TPtr nestedStruct) (VPtr (zero nestedStruct)) []
     = (VPtr (VStruct [VString "bob"; VStruct [VString "  bob  "]]), None).
Proof.
  split; [reflexivity |]. split.
  - intros opts ft k. unfold innerOptions. now destruct (Anonymous ft).
  - split; reflexivity.
Qed.

(** ** [CheckDisallowed] *)

Lemma nameOf_cons (c : ascii) (r : string) :
  nameOf (String c r) = if Ascii.eqb c "=" then "" else String c (nameOf r).
Proof.
  unfold nameOf. simpl.
  destruct (Ascii.eqb c "="); [reflexivity |].
  now destruct (Strings.SplitN r "=" 2).
Qed.

(** A prefix of the name is a prefix of the entry. *)
Lemma HasPrefix_nameOf (entry p : string) :
  Strings.HasPrefix (nameOf entry) p = true -> Strings.HasPrefix entry p = true.
Proof.
  revert entry. induction p as [| a p IH]; intros entry; [reflexivity |].
  destruct entry as [| b r]; [discriminate |].
  rewrite nameOf_cons. destruct (Ascii.eqb b "="); [discriminate |].
  simpl. intros [Hab Hr]%andb_prop. rewrite Hab. simpl. now apply IH.
Qed.

(** Without [=] in the prefix, filtering the entries is filtering the
    names. *)
Lemma HasPrefix_entry_name (entry p : string) :
  hasByte "=" p = false ->
  Strings.HasPrefix entry p = Strings.HasPrefix (nameOf entry) p.
Proof.
  revert entry. induction p as [| a p IH]; intros entry Hp; [reflexivity |].
  simpl in Hp. apply orb_false_elim in Hp as [Ha Hp].
  destruct entry as [| b r]; [reflexivity |].
  rewrite nameOf_cons. simpl.
  destruct (Ascii.eqb_spec b "=") as [-> | Hb].
  - now rewrite Ha.
  - simpl. now rewrite (IH r Hp).
Qed.

Lemma knownKey_In (keys : list string) (name : string) :
  knownKey keys name = true <-> In name keys.
Proof.
  unfold knownKey. rewrite List.existsb_exists. split.
  - intros [k [Hin Heq]]. apply String.eqb_eq in Heq. now subst.
  - intros Hin. exists name. split; [exact Hin | apply String.eqb_refl].
Qed.

Lemma whitelist_knownKey (keys : list string) (name : string) :
  bool_decide (name ∈ (list_to_set keys : gset string)) = knownKey keys name.
Proof.
  destruct (knownKey keys name) eqn:Hk.
  - apply bool_decide_eq_true. apply elem_of_list_to_set, list_elem_of_In.
    now apply knownKey_In.
  - apply bool_decide_eq_false. intros Hin.
    apply elem_of_list_to_set, list_elem_of_In, knownKey_In in Hin. congruence.
Qed.

Lemma checkEnviron_firstUnknown (keys : list string) (pfx : string)
      (environ : Os.Environ) :
  checkEnviron (list_to_set keys) (filterPrefix pfx) environ
  = firstUnknown keys pfx environ.
Proof.
  unfold firstUnknown.
  induction environ as [| entry rest IH]; [reflexivity |].
  simpl. unfold unknownEntry at 1. fold (nameOf entry).
  rewrite whitelist_knownKey.
  destruct (Strings.HasPrefix entry (filterPrefix pfx)); simpl; [| exact IH].
  destruct (knownKey keys (nameOf entry)); simpl; [exact IH | reflexivity].
Qed.

Lemma disallowedPrefix_filterPrefix (opts : options) :
  disallowedPrefix opts = filterPrefix (prefix opts).
Proof.
  unfold disallowedPrefix, filterPrefix.
  destruct (String.eqb_spec (prefix opts) "") as [-> | _]; reflexivity.
Qed.

Lemma CheckDisallowed_eq (environ : Os.Environ) (specTy : Ty) (specVal : Val)
      (optsValues : list Option) (infos : list variable) (root : Val) :
  gatherInfo specTy specVal (apply defaultOptions optsValues) = inr (infos, root) ->
  CheckDisallowed environ specTy specVal optsValues
  = firstUnknown (map key infos) (prefix (apply defaultOptions optsValues)) environ.
Proof.
  intros Hgather. unfold CheckDisallowed. rewrite Hgather.
  rewrite disallowedPrefix_filterPrefix. apply checkEnviron_firstUnknown.
Qed.

(** C9, amended.  [CheckDisallowed] returns the error for the first entry
    of the environment, in the order of enumeration, that begins with the
    filter prefix and whose name is no discovered key; the filter prefix is
    the upper-cased prefix and an underscore when a prefix is set and empty
    when none is, so that without a prefix every variable is checked.  When
    the filter prefix has no [=], an entry begins with it exactly when its
    name does.  With the prefix [APP] and the only key [APP_PORT], the
    environment [APP_PORT=1], [APP_HOST=x] gives the error that names
    [APP_HOST], and the environment [APP_PORT=1] gives no error. *)
Theorem check_disallowed_first_unknown (environ : Os.Environ) (specTy : Ty)
        (specVal : Val) (optsValues : list Option) (infos : list variable)
        (root : Val) :
  gatherInfo specTy specVal (apply defaultOptions optsValues) = inr (infos, root) ->
  CheckDisallowed environ specTy specVal optsValues
    = firstUnknown (map key infos) (prefix (apply defaultOptions optsValues)) environ
  /\ (forall pfx entry,
        hasByte "=" (filterPrefix pfx) = false ->
        Strings.HasPrefix entry (filterPrefix pfx)
        = Strings.HasPrefix (nameOf entry) (filterPrefix pfx))
  /\ (forall pfx, pfx <> "" -> filterPrefix pfx = Strings.ToUpper pfx +:+ "_")
  /\ filterPrefix "" = ""
  /\ CheckDisallowed ["APP_PORT=1"; "APP_HOST=x"] (TPtr portStruct)
       (VPtr (zero portStruct)) [WithPrefix "APP"] = Some (ErrUnknownEnv "APP_HOST")
  /\ CheckDisallowed ["APP_PORT=1"] (TPtr portStruct)
       (VPtr (zero portStruct)) [WithPrefix "APP"] = None.
Proof.
  intros Hgather.
  split; [now apply CheckDisallowed_eq with (root := root) |].
  split; [intros pfx entry Hp; now apply HasPrefix_entry_name |].
  split.
  - intros pfx Hp. unfold filterPrefix.
    now apply String.eqb_neq in Hp as ->.
  - repeat split; reflexivity.
Qed.

Lemma LookupEnv_entry (environ : Os.Environ) (name value : string) :
  Os.LookupEnv environ name = Some value ->
  exists entry, In entry environ /\ nameOf entry = name.
Proof.
  induction environ as [| entry rest IH]; [discriminate |].
  simpl. intros Hlookup.
  assert (Hrest : Os.LookupEnv rest name = Some value ->
                  exists e, (entry = e \/ In e rest) /\ nameOf e = name).
  { intros H. destruct (IH H) as [e [Hin He]]. eauto. }
  unfold nameOf.
  destruct (Strings.SplitN entry "=" 2) as [| n [| x [| y l]]] eqn:Hsplit; auto.
  destruct (String.eqb_spec n name) as [-> | Hn]; simpl in Hlookup; auto.
  destruct (String.eqb name ""); simpl in Hlookup; auto.
  exists entry. rewrite Hsplit. auto.
Qed.

Lemma find_unknown_exists (keys : list string) (pfx : string)
      (environ : Os.Environ) (entry : string) :
  In entry environ ->
  unknownEntry keys pfx entry = true ->
  exists e, List.find (unknownEntry keys pfx) environ = Some e.
Proof.
  intros Hin Hunknown.
  destruct (List.find (unknownEntry keys pfx) environ) as [e|] eqn:Hfind; [eauto |].
  pose proof (List.find_none _ _ Hfind entry Hin). congruence.
Qed.

Lemma find_first_unknown (keys : list string) (pfx : string)
      (pre post : list string) (entry : string) :
  (forall e, In e pre -> unknownEntry keys pfx e = false) ->
  unknownEntry keys pfx entry = true ->
  List.find (unknownEntry keys pfx) (pre ++ entry :: post) = Some entry.
Proof.
  intros Hpre Hentry. induction pre as [| e pre IH]; simpl.
  - now rewrite Hentry.
  - rewrite (Hpre e (or_introl eq_refl)). apply IH.
    intros e' He'. apply Hpre. now right.
Qed.

(** C10, amended.  [CheckDisallowed] judges the names by the keys of the
    discovered variables alone.  Let [v] be a discovered variable and [D] the
    variable from which [loadFromFile] takes the path for its key.  If the
    environment sets [D], [D] begins with the filter prefix, and [D] is not
    itself the key of a discovered variable, then [CheckDisallowed] returns
    an "unknown environment variable" error; the error names [D] when no
    entry before that of [D] is rejected.  Yet, when file indirection
    applies and the key itself is not set, the value of [v] is read from the
    file that [D] names. *)
Theorem derived_file_variable_rejected (environ : Os.Environ) (fs : Os.Files)
        (specTy : Ty) (specVal : Val) (optsValues : list Option)
        (infos : list variable) (root : Val) (v : variable) (p : string) :
  gatherInfo specTy specVal (apply defaultOptions optsValues) = inr (infos, root) ->
  In v infos ->
  Os.LookupEnv environ (fileEnvName v (key v)) = Some p ->
  Strings.HasPrefix (fileEnvName v (key v))
    (filterPrefix (prefix (apply defaultOptions optsValues))) = true ->
  knownKey (map key infos) (fileEnvName v (key v)) = false ->
  CheckDisallowed environ specTy specVal optsValues
    = firstUnknown (map key infos) (prefix (apply defaultOptions optsValues)) environ
  /\ (exists name,
      CheckDisallowed environ specTy specVal optsValues = Some (ErrUnknownEnv name))
  /\ (forall pre entry post,
        environ = pre ++ entry :: post ->
        nameOf entry = fileEnvName v (key v) ->
        (forall e, In e pre ->
           unknownEntry (map key infos) (prefix (apply defaultOptions optsValues)) e
           = false) ->
        CheckDisallowed environ specTy specVal optsValues
        = Some (ErrUnknownEnv (fileEnvName v (key v))))
  /\ (snd (resolveFileLoading v) = true ->
      Os.LookupEnv environ (key v) = None ->
      String.eqb (Strings.TrimSpace p) "" = false ->
      tryEnv environ fs v (key v)
      = match Os.ReadFile fs (Strings.TrimSpace p) with
        | Some contents => (contents, true, None)
        | None => ("", false, Some (ErrReadFile (Strings.TrimSpace p)))
        end).
Proof.
  intros Hgather Hv Hset Hprefix Hfresh.
  rewrite (CheckDisallowed_eq environ specTy specVal optsValues infos root Hgather).
  unfold firstUnknown.
  assert (Hunknown : forall entry,
             nameOf entry = fileEnvName v (key v) ->
             unknownEntry (map key infos)
               (prefix (apply defaultOptions optsValues)) entry = true).
  { intros entry Hname. unfold unknownEntry. rewrite Hname, Hfresh.
    rewrite HasPrefix_nameOf; [reflexivity |]. now rewrite Hname. }
  split; [reflexivity |]. split; [| split].
  - destruct (LookupEnv_entry environ _ _ Hset) as [entry [Hin Hname]].
    destruct (find_unknown_exists _ _ environ entry Hin (Hunknown entry Hname))
      as [e He].
    rewrite He. simpl. eauto.
  - intros pre entry post -> Hname Hpre.
    rewrite (find_first_unknown _ _ pre post entry Hpre (Hunknown entry Hname)).
    simpl. now rewrite Hname.
  - intros Hneed Hkey Hpath. unfold tryEnv.
    now rewrite Hkey, loadFromFile_eq, Hneed, Hset, Hpath.
Qed.

(** ** The counterexamples, whatever the case table *)

(** The sample below for any case table: its strings are in ASCII. *)
Lemma explicit_name_altKey_is_not_key_any_table :
  resolveKey "APP" (mkStructField "Port" [("envconfig", "port")] false true)
    = ("APP_PORT", "PORT")
  /\ snd (resolveKey "APP" (mkStructField "Port" [("envconfig", "port")] false true))
     <> fst (resolveKey "APP" (mkStructField "Port" [("envconfig", "port")] false true)).
Proof. split; [reflexivity | vm_compute; discriminate]. Qed.

(** The sample below for any case table: its strings are in ASCII. *)
Lemma file_suffix_is_trimmed_any_table :
  fileEnvName (fooVar [("file", " _x")]) "FOO" = "FOO_X"
  /\ Strings.ToUpper ("FOO" +:+ statedSuffix (fooVar [("file", " _x")])) = "FOO _X"
  /\ loadFromFile ["FOO_X=/p"] {[ "/p" := "secret" ]} (fooVar [("file", " _x")]) "FOO"
     = ("secret", true, None)
  /\ Os.LookupEnv ["FOO_X=/p"]
       (Strings.ToUpper ("FOO" +:+ statedSuffix (fooVar [("file", " _x")]))) = None
  /\ fileEnvName (fooVar [("file", "")]) "FOO" = "FOO_FILE"
  /\ Strings.ToUpper ("FOO" +:+ statedSuffix (fooVar [("file", "")])) = "FOO"
  /\ fileEnvName (fooVar [("file", " _x")]) "FOO"
     <> Strings.ToUpper ("FOO" +:+ statedSuffix (fooVar [("file", " _x")])).
Proof.
  repeat split; try reflexivity.
  vm_compute. discriminate.
Qed.

(** The sample below for any case table: its strings are in ASCII. *)
Lemma check_disallowed_without_prefix_any_table :
  CheckDisallowed ["PORT=1"; "HOME=/root"] (TPtr portStruct)
    (VPtr (zero portStruct)) [] = Some (ErrUnknownEnv "HOME")
  /\ Strings.HasPrefix "HOME" (Strings.ToUpper "" +:+ "_") = false
  /\ statedCheck ["PORT"] "" ["PORT=1"; "HOME=/root"] = None
  /\ CheckDisallowed ["PORT=1"; "HOME=/root"] (TPtr portStruct)
       (VPtr (zero portStruct)) []
     <> statedCheck ["PORT"] "" ["PORT=1"; "HOME=/root"].
Proof.
  split; [reflexivity |]. split; [reflexivity |]. split; [reflexivity |].
  vm_compute. discriminate.
Qed.

(** The sample below for any case table: its strings are in ASCII. *)
Lemma derived_file_variable_may_be_a_key_any_table :
  gatherInfo (TPtr certStruct) (VPtr (zero certStruct))
    (apply defaultOptions [WithPrefix "app"])
  = inr ([certVar; certFileVar], VStruct [VString ""; VString ""])
  /\ snd (resolveFileLoading certVar) = true
  /\ fileEnvName certVar (key certVar) = "APP_CERT_FILE"
  /\ Os.LookupEnv ["APP_CERT_FILE=/etc/cert.pem"] (fileEnvName certVar (key certVar))
     = Some "/etc/cert.pem"
  /\ Strings.HasPrefix (fileEnvName certVar (key certVar))
       (filterPrefix (prefix (apply defaultOptions [WithPrefix "app"]))) = true
  /\ CheckDisallowed ["APP_CERT_FILE=/etc/cert.pem"] (TPtr certStruct)
       (VPtr (zero certStruct)) [WithPrefix "app"] = None
  /\ Process noFloat noDuration ["APP_CERT_FILE=/etc/cert.pem"]
       {[ "/etc/cert.pem" := "PEM" ]} (TPtr certStruct) (VPtr (zero certStruct))
       [WithPrefix "app"]
     = (VPtr (VStruct [VString "PEM"; VString "/etc/cert.pem"]), None).
Proof. repeat split; reflexivity. Qed.

(** ** Strings beyond ASCII *)

(** With a case table that pairs U+00E9 with U+00C9, as that of Unicode
    does, the upper case of [café] is [CAFÉ]; a byte that is no UTF-8 becomes
    the replacement character. *)
Example ToUpper_beyond_ASCII :
  upperCase 233%N = 201%N ->
  upperCase 65533%N = 65533%N ->
  Strings.ToUpper "café" = "CAFÉ"
  /\ Strings.ToUpper (String "a" (String (ascii_of_N 255) "b"))
     = String "A" (Utf8.EncodeRune Utf8.RuneError +:+ "B")
  /\ fst (resolveKey "" (mkStructField "Café" [("split_words", "true")] false true))
     = "CAFÉ".
Proof.
  unfold upperCase. intros He Hr.
  repeat split; vm_compute; rewrite ?He, ?Hr; reflexivity.
Qed.

(** The prefix [é] filters the names that begin with [É_]. *)
Example CheckDisallowed_beyond_ASCII :
  upperCase 233%N = 201%N ->
  upperCase 201%N = 201%N ->
  CheckDisallowed ["É_HOST=x"] (TPtr portStruct) (VPtr (zero portStruct))
    [WithPrefix "é"] = Some (ErrUnknownEnv "É_HOST").
Proof.
  unfold upperCase. intros He HE.
  unfold CheckDisallowed.
  assert (Hopts : apply defaultOptions [WithPrefix "é"]
                  = set_prefix "É" defaultOptions).
  { vm_compute. rewrite He. reflexivity. }
  rewrite Hopts.
  assert (Hpfx : disallowedPrefix (set_prefix "É" defaultOptions) = "É_").
  { vm_compute. rewrite HE. reflexivity. }
  rewrite Hpfx.
  destruct (gatherInfo (TPtr portStruct) (VPtr (zero portStruct))
              (set_prefix "É" defaultOptions)) as [e | [infos root]] eqn:Hg.
  - discriminate Hg.
  - injection Hg as <- <-. vm_compute. rewrite ?HE. vm_compute. reflexivity.
Qed.


End Facts.

(** * Samples

    The witnesses and counterexamples, and the functions on sample inputs.
    The strings are in ASCII, for which [strings.ToUpper] does not consult
    the case table; [sampleTable] stands in for it. *)

Section Samples.
#[local] Existing Instance sampleTable.

(** ** The models of the library functions *)

Example ParseInt0_samples :
  Strconv.ParseInt0 "8080" 64 = inr 8080
  /\ Strconv.ParseInt0 "-128" 8 = inr (-128)
  /\ Strconv.ParseInt0 "128" 8 = inl ErrRange
  /\ Strconv.ParseInt0 "300x" 8 = inl ErrRange
  /\ Strconv.ParseInt0 "30x" 8 = inl ErrSyntax
  /\ Strconv.ParseInt0 "0x1F" 64 = inr 31
  /\ Strconv.ParseInt0 "0b101" 64 = inr 5
  /\ Strconv.ParseInt0 "010" 64 = inr 8
  /\ Strconv.ParseInt0 "0" 64 = inr 0
  /\ Strconv.ParseInt0 "1_000" 64 = inr 1000
  /\ Strconv.ParseInt0 "_1" 64 = inl ErrSyntax
  /\ Strconv.ParseInt0 "1__0" 64 = inl ErrSyntax
  /\ Strconv.ParseInt0 "0x" 64 = inl ErrSyntax
  /\ Strconv.ParseInt0 "" 64 = inl ErrSyntax
  /\ Strconv.ParseInt0 "9223372036854775808" 64 = inl ErrRange
  /\ Strconv.ParseInt0 "-9223372036854775808" 64 = inr (-9223372036854775808).
Proof. repeat split; reflexivity. Qed.

Example ParseUint0_samples :
  Strconv.ParseUint0 "255" 8 = inr 255
  /\ Strconv.ParseUint0 "256" 8 = inl ErrRange
  /\ Strconv.ParseUint0 "-1" 8 = inl ErrSyntax
  /\ Strconv.ParseUint0 "0o17" 64 = inr 15.
Proof. repeat split; reflexivity. Qed.

Example strings_samples :
  Strings.Split "a:1,b:2" "," = ["a:1"; "b:2"]
  /\ Strings.Split "" "," = [""]
  /\ Strings.Split "a,,b," "," = ["a"; ""; "b"; ""]
  /\ Strings.SplitN "A=b=c" "=" 2 = ["A"; "b=c"]
  /\ Strings.SplitN "A" "=" 2 = ["A"]
  /\ Strings.TrimSpace "  a b  " = "a b"
  /\ Strings.TrimSpace "   " = ""
  /\ Strings.ToUpper "aZ_/9x" = "AZ_/9X"
  /\ Strings.Join ["API"; "Key"] "_" = "API_Key"
  /\ Strings.HasPrefix "APP_PORT=1" "APP_" = true.
Proof. repeat split; reflexivity. Qed.

Example LookupEnv_samples :
  Os.LookupEnv ["A=1"; "B=x=y"; "A=2"] "A" = Some "1"
  /\ Os.LookupEnv ["A=1"; "B=x=y"; "A=2"] "B" = Some "x=y"
  /\ Os.LookupEnv ["A=1"; "B=x=y"; "A=2"] "C" = None
  /\ Os.LookupEnv ["A="] "A" = Some "".
Proof. repeat split; reflexivity. Qed.

Example splitWords_samples :
  splitWords "Port" = ["Port"]
  /\ splitWords "HTTPServerID" = ["HTTP"; "Server"; "ID"]
  /\ splitWords "fooBar_bazQUX" = ["foo"; "Bar_baz"; "QUX"]
  /\ splitWords "MultiWordVar" = ["Multi"; "Word"; "Var"]
  /\ splitWords "" = [].
Proof. repeat split; reflexivity. Qed.

(** The file of the key comes before the alternate key: with [APP_PORT_FILE]
    and [PORT] both set, the value is the contents of the file. *)
Example file_of_key_before_altKey :
  value ["PORT=1"; "APP_PORT_FILE=/run/port"] {[ "/run/port" := "2" ]}
    {| key := "APP_PORT"; altKey := "PORT";
       fieldType := stringField "Port" [("envconfig", "port")];
       field := [SField 0%nat]; typ := TInt 64;
       Opts := apply defaultOptions [WithPrefix "APP"] |}
  = ("2", true, None).
Proof. reflexivity. Qed.

Lemma resolveKey_explicit_name_witness :
  String.eqb (Strings.TrimSpace
                (Get (Tag (mkStructField "Port" [("envconfig", "port")] false true))
                     TagEnvconfig)) "" = false
  /\ snd (resolveKey "APP" (mkStructField "Port" [("envconfig", "port")] false true))
     = "PORT".
Proof.
  split; [reflexivity |].
  apply (resolveKey_explicit_name "APP"
           (mkStructField "Port" [("envconfig", "port")] false true)).
  reflexivity.
Defined.

(** C3 as stated fails: under the prefix [APP] the field tagged
    [envconfig:"port"] has the key [APP_PORT] and the alternate key [PORT]. *)
Lemma explicit_name_altKey_is_not_key :
  resolveKey "APP" (mkStructField "Port" [("envconfig", "port")] false true)
    = ("APP_PORT", "PORT")
  /\ snd (resolveKey "APP" (mkStructField "Port" [("envconfig", "port")] false true))
     <> fst (resolveKey "APP" (mkStructField "Port" [("envconfig", "port")] false true)).
Proof. exact explicit_name_altKey_is_not_key_any_table. Qed.

Lemma split_words_key_witness :
  String.eqb (Strings.TrimSpace
                (Get (Tag (mkStructField "APIKey" [("split_words", "true")] false true))
                     TagEnvconfig)) "" = true
  /\ isTrue (Get (Tag (mkStructField "APIKey" [("split_words", "true")] false true))
                 TagSplitWords) = true
  /\ fst (resolveKey "" (mkStructField "APIKey" [("split_words", "true")] false true))
     = "API_KEY".
Proof.
  split; [reflexivity |]. split; [reflexivity |].
  refine (proj1 (proj2 (proj2 (proj2 (proj2
    (split_words_key "" (mkStructField "APIKey" [("split_words", "true")] false true)
       _ _))))) _ _); reflexivity.
Defined.

Lemma file_indirection_name_witness :
  key (fooVar []) = "FOO"
  /\ fileLoadingByDefault (fooVar []) = true
  /\ Os.LookupEnv ["FOO_FILE=/run/secrets/foo"] "FOO" = None
  /\ Os.LookupEnv ["FOO_FILE=/run/secrets/foo"] "FOO_FILE" = Some "/run/secrets/foo"
  /\ value ["FOO_FILE=/run/secrets/foo"] {[ "/run/secrets/foo" := "secret" ]} (fooVar [])
     = ("secret", true, None).
Proof.
  split; [reflexivity |]. split; [reflexivity |].
  split; [reflexivity |]. split; [reflexivity |].
  refine (proj2 (proj2 (proj2 (proj2
    (file_indirection_name ["FOO_FILE=/run/secrets/foo"]
       {[ "/run/secrets/foo" := "secret" ]} (fooVar []))))) "/run/secrets/foo"
    _ _ _ _ _ _ _); reflexivity.
Defined.

(** C4 as stated fails on a [file] tag with white space around the suffix:
    for [file:" _x"] the package reads the path from [FOO_X], not from the
    name [FOO _X] that the tag string itself would give; and for a blank tag
    it reads [FOO_FILE], not [FOO]. *)
Lemma file_suffix_is_trimmed :
  fileEnvName (fooVar [("file", " _x")]) "FOO" = "FOO_X"
  /\ Strings.ToUpper ("FOO" +:+ statedSuffix (fooVar [("file", " _x")])) = "FOO _X"
  /\ loadFromFile ["FOO_X=/p"] {[ "/p" := "secret" ]} (fooVar [("file", " _x")]) "FOO"
     = ("secret", true, None)
  /\ Os.LookupEnv ["FOO_X=/p"]
       (Strings.ToUpper ("FOO" +:+ statedSuffix (fooVar [("file", " _x")]))) = None
  /\ fileEnvName (fooVar [("file", "")]) "FOO" = "FOO_FILE"
  /\ Strings.ToUpper ("FOO" +:+ statedSuffix (fooVar [("file", "")])) = "FOO"
  /\ fileEnvName (fooVar [("file", " _x")]) "FOO"
     <> Strings.ToUpper ("FOO" +:+ statedSuffix (fooVar [("file", " _x")])).
Proof. exact file_suffix_is_trimmed_any_table. Qed.

Lemma file_indirection_errors_witness :
  envNames (fooVar []) = [] ++ "FOO" :: []
  /\ Os.LookupEnv ["FOO_FILE=/missing"] "FOO" = None
  /\ snd (loadFromFile ["FOO_FILE=/missing"] ∅ (fooVar []) "FOO")
     = Some (ErrReadFile "/missing")
  /\ gatherInfo (TPtr (fooStruct [])) (VPtr (zero (fooStruct [])))
       (apply defaultOptions []) = inr ([] ++ fooVar [] :: [], VStruct [VString ""])
  /\ Process noFloat noDuration ["FOO_FILE=/missing"] ∅
       (TPtr (fooStruct [])) (VPtr (zero (fooStruct []))) []
     = (VPtr (VStruct [VString ""]), Some (ErrReadFile "/missing")).
Proof.
  split; [reflexivity |]. split; [reflexivity |].
  split; [reflexivity |]. split; [reflexivity |].
  destruct (file_indirection_errors noFloat noDuration ["FOO_FILE=/missing"] ∅
              (fooVar []) "FOO") as (_ & _ & Hprocess).
  destruct (Hprocess (ErrReadFile "/missing") [] []) as [_ Habort];
    [reflexivity | intros n [] | reflexivity | reflexivity |].
  apply (Habort _ _ _ [] [] (VStruct [VString ""])); reflexivity.
Defined.

Lemma required_key_missing_witness :
  isRequired nameVar = true
  /\ Os.LookupEnv ["PORT=8080"] (key nameVar) = None
  /\ Lookup (Tag (fieldType nameVar)) TagDefault = None
  /\ gatherInfo (TPtr namePortStruct) (VPtr (zero namePortStruct))
       (apply defaultOptions []) = inr ([] ++ nameVar :: [portVar], zero namePortStruct)
  /\ Process noFloat noDuration ["PORT=8080"] ∅
       (TPtr namePortStruct) (VPtr (zero namePortStruct)) []
     = (VPtr (VStruct [VString ""; VInt 0]), Some (ErrRequiredKey "NAME")).
Proof.
  split; [reflexivity |]. split; [reflexivity |].
  split; [reflexivity |]. split; [reflexivity |].
  destruct (required_key_missing noFloat noDuration ["PORT=8080"] ∅ nameVar)
    as (_ & _ & Hprocess);
    [reflexivity | reflexivity
     | intros Hne; exfalso; apply Hne; reflexivity
     | intros name [<- | []]; reflexivity
     | reflexivity |].
  destruct (Hprocess [] [portVar] (zero namePortStruct) (zero namePortStruct))
    as [_ Habort]; [reflexivity |].
  apply Habort. reflexivity.
Defined.

Lemma map_coercion_witness :
  String.eqb (Strings.TrimSpace "x:1,a:1:2,b:2") "" = false
  /\ Strings.Split "x:1,a:1:2,b:2" "," = ["x:1"] ++ "a:1:2" :: ["b:2"]
  /\ List.length (Strings.Split "a:1:2" ":") <> 2%nat
  /\ processField noFloat noDuration "x:1,a:1:2,b:2" (TMap TString (TInt 64)) VNil
     = (VNil, Some (ErrInvalidMapItem "a:1:2")).
Proof.
  split; [reflexivity |]. split; [reflexivity |].
  split; [vm_compute; lia |].
  destruct (map_coercion noFloat noDuration TString (TInt 64) "x:1,a:1:2,b:2" VNil)
    as (_ & Hbad & _).
  destruct (Hbad eq_refl ["x:1"] "a:1:2" ["b:2"]) as [_ Hitem];
    [reflexivity | vm_compute; lia |].
  apply Hitem. constructor; [| constructor].
  exists "x", "1". repeat split; reflexivity.
Defined.

Lemma check_disallowed_first_unknown_witness :
  gatherInfo (TPtr portStruct) (VPtr (zero portStruct))
    (apply defaultOptions [WithPrefix "APP"])
  = inr ([appPortVar], VStruct [VInt 0])
  /\ CheckDisallowed ["HOME=/root"; "APP_HOST=x"; "APP_PORT=1"] (TPtr portStruct)
       (VPtr (zero portStruct)) [WithPrefix "APP"]
     = firstUnknown ["APP_PORT"] "APP" ["HOME=/root"; "APP_HOST=x"; "APP_PORT=1"].
Proof.
  split; [reflexivity |].
  destruct (check_disallowed_first_unknown
              ["HOME=/root"; "APP_HOST=x"; "APP_PORT=1"]
              (TPtr portStruct) (VPtr (zero portStruct)) [WithPrefix "APP"]
              [appPortVar] (VStruct [VInt 0])) as [Heq _];
    [reflexivity | exact Heq].
Defined.

(** C9 as stated fails without a prefix: every variable is checked then, not
    only those whose name begins with an underscore.  With the only key
    [PORT] and the environment [PORT=1], [HOME=/root], the package returns
    the error for [HOME], where the stated rule finds nothing to report. *)
Lemma check_disallowed_without_prefix :
  CheckDisallowed ["PORT=1"; "HOME=/root"] (TPtr portStruct)
    (VPtr (zero portStruct)) [] = Some (ErrUnknownEnv "HOME")
  /\ Strings.HasPrefix "HOME" (Strings.ToUpper "" +:+ "_") = false
  /\ statedCheck ["PORT"] "" ["PORT=1"; "HOME=/root"] = None
  /\ CheckDisallowed ["PORT=1"; "HOME=/root"] (TPtr portStruct)
       (VPtr (zero portStruct)) []
     <> statedCheck ["PORT"] "" ["PORT=1"; "HOME=/root"].
Proof. exact check_disallowed_without_prefix_any_table. Qed.

Lemma derived_file_variable_rejected_witness :
  gatherInfo (TPtr portStruct) (VPtr (zero portStruct))
    (apply defaultOptions [WithPrefix "APP"]) = inr ([appPortVar], VStruct [VInt 0])
  /\ Os.LookupEnv ["APP_PORT_FILE=/run/port"] (fileEnvName appPortVar (key appPortVar))
     = Some "/run/port"
  /\ knownKey (map key [appPortVar]) (fileEnvName appPortVar (key appPortVar)) = false
  /\ CheckDisallowed ["APP_PORT_FILE=/run/port"] (TPtr portStruct)
       (VPtr (zero portStruct)) [WithPrefix "APP"]
     = Some (ErrUnknownEnv "APP_PORT_FILE").
Proof.
  split; [reflexivity |]. split; [reflexivity |]. split; [reflexivity |].
  destruct (derived_file_variable_rejected ["APP_PORT_FILE=/run/port"] ∅
              (TPtr portStruct) (VPtr (zero portStruct)) [WithPrefix "APP"]
              [appPortVar] (VStruct [VInt 0]) appPortVar "/run/port")
    as (_ & _ & Hfirst & _);
    [reflexivity | left; reflexivity | reflexivity | reflexivity | reflexivity |].
  apply (Hfirst [] "APP_PORT_FILE=/run/port" []); [reflexivity | reflexivity |].
  intros e [].
Defined.

(** C10 as stated fails when the derived name is itself a key.  With the
    fields [Cert] and [CertFile] (split into words) under the prefix [APP],
    the path variable of [Cert] is [APP_CERT_FILE], which is the key of
    [CertFile]: the environment that sets it passes [CheckDisallowed], while
    [Process] loads [Cert] from the file it names. *)
Lemma derived_file_variable_may_be_a_key :
  gatherInfo (TPtr certStruct) (VPtr (zero certStruct))
    (apply defaultOptions [WithPrefix "app"])
  = inr ([certVar; certFileVar], VStruct [VString ""; VString ""])
  /\ snd (resolveFileLoading certVar) = true
  /\ fileEnvName certVar (key certVar) = "APP_CERT_FILE"
  /\ Os.LookupEnv ["APP_CERT_FILE=/etc/cert.pem"] (fileEnvName certVar (key certVar))
     = Some "/etc/cert.pem"
  /\ Strings.HasPrefix (fileEnvName certVar (key certVar))
       (filterPrefix (prefix (apply defaultOptions [WithPrefix "app"]))) = true
  /\ CheckDisallowed ["APP_CERT_FILE=/etc/cert.pem"] (TPtr certStruct)
       (VPtr (zero certStruct)) [WithPrefix "app"] = None
  /\ Process noFloat noDuration ["APP_CERT_FILE=/etc/cert.pem"]
       {[ "/etc/cert.pem" := "PEM" ]} (TPtr certStruct) (VPtr (zero certStruct))
       [WithPrefix "app"]
     = (VPtr (VStruct [VString "PEM"; VString "/etc/cert.pem"]), None).
Proof. exact derived_file_variable_may_be_a_key_any_table. Qed.

(** ** White space beyond ASCII *)

Example TrimSpace_unicode :
  Strings.TrimSpace nbsp = ""
  /\ Strings.TrimSpace (nbsp +:+ " a b" +:+ nbsp +:+ " ") = "a b"
  /\ Strings.TrimSpace (Utf8.EncodeRune 8195 +:+ "x" +:+ Utf8.EncodeRune 12288) = "x"
  /\ Strings.TrimSpace (Utf8.EncodeRune 133 +:+ "x" +:+ Utf8.EncodeRune 8232) = "x"
  /\ Strings.TrimSpace (String (ascii_of_N 160) " x") = String (ascii_of_N 160) " x"
  /\ Strings.TrimSpace (Utf8.EncodeRune 8203 +:+ "x") = Utf8.EncodeRune 8203 +:+ "x".
Proof. repeat split; reflexivity. Qed.

(** A value, a tag or a path made of a no-break space is blank. *)
Example blank_beyond_ASCII :
  processField noFloat noDuration nbsp (TMap TString (TInt 64)) VNil = (VMap [], None)
  /\ resolveKey "" (mkStructField "Port" [("envconfig", nbsp)] false true) = ("PORT", "")
  /\ fileEnvName (fooVar [("file", nbsp +:+ "_x")]) "FOO" = "FOO_X"
  /\ loadFromFile ["FOO_X=/p"] {[ "/p" := "secret" ]}
       (fooVar [("file", nbsp +:+ "_x")]) "FOO" = ("secret", true, None)
  /\ loadFromFile [("FOO_FILE=" +:+ nbsp)%string] {[ nbsp := "secret" ]} (fooVar []) "FOO"
     = ("", false, Some (ErrFileEnvEmpty "_FILE")).
Proof. repeat split; reflexivity. Qed.


End Samples.
